(** * Pool autoscaling: the reconciliation tick of [pool_resize]

    A shallow embedding of
    [src/api-service/__app__/pool_resize/__init__.py]: demand estimation
    ([get_vm_count] and the clamping in [main]), the greedy allocator
    ([scale_up]), the reclaimer ([scale_down]) and the per-tick control flow
    ([main]), followed by the properties the specification states about them.

    Python integers are unbounded, so sizes and counts are [Z].  Scalesets are
    objects that the code mutates in place and then saves; a run of a function
    is modelled by explicit state passing: it returns the list of scalesets as
    the objects stand afterwards, together with the log of the calls made on
    the external collaborators (save, create, node shutdown) and the exception
    raised, if any.  Logging calls have no effect on the state and are left
    out. *)

From stdpp Require Import base numbers list strings gmap.

Set Default Proof Using "Type".
Local Open Scope Z_scope.

(** ** Data model *)

(** [onefuzztypes.enums.ScalesetState].  The source names three members;
    every other member of the enumeration is an [other_state]. *)
Inductive ScalesetState : Set :=
  | running
  | resize
  | shutdown
  | other_state (member : string).

Global Instance ScalesetState_eq_dec : EqDecision ScalesetState.
Proof. solve_decision. Defined.

(** [onefuzztypes.models.AutoScaleConfig]. [max_size] and [region] are
    optional fields. *)
Module AutoScaleConfig.
Record t : Type := mk {
  image : string;
  max_size : option Z;
  min_size : Z;
  region : option string;
  scaleset_size : Z;
  spot_instances : bool;
  vm_sku : string
}.
End AutoScaleConfig.

Module Pool.
Record t : Type := mk {
  name : string;
  autoscale : option AutoScaleConfig.t
}.
End Pool.

(** [onefuzztypes.models.TaskPool]: the typed pool reference of a task. *)
Module TaskPool.
Record t : Type := mk {
  count : Z;
  pool_name : string
}.
End TaskPool.

(** A task as [get_vm_count] observes it: the value of [task.get_pool()]
    ([None] when the reference does not resolve to a [Pool]) and the value of
    [task.config.pool] ([None] when it is absent or not a [TaskPool]). *)
Module Task.
Record t : Type := mk {
  get_pool : option Pool.t;
  config_pool : option TaskPool.t
}.
End Task.

Module Node.
Record t : Type := mk {
  machine_id : string;
  scaleset_id : string
}.
End Node.

Module Scaleset.
Record t : Type := mk {
  scaleset_id : string;
  pool_name : string;
  state : ScalesetState;
  size : Z;
  image : string;
  vm_sku : string;
  region : string;
  spot_instances : bool;
  tags : gmap string string
}.

(** The two in-place updates the source performs: [scaleset.size = v] and
    [scaleset.state = st]. *)
Definition set_size (s : t) (v : Z) : t :=
  mk (scaleset_id s) (pool_name s) (state s) v (image s) (vm_sku s)
     (region s) (spot_instances s) (tags s).

Definition set_state (s : t) (st : ScalesetState) : t :=
  mk (scaleset_id s) (pool_name s) st (size s) (image s) (vm_sku s)
     (region s) (spot_instances s) (tags s).
End Scaleset.

(** Calls issued to the external collaborators. Each of them is a mutation
    of the persisted fleet state. *)
Inductive Event : Type :=
  | EvSave (s : Scaleset.t)          (* scaleset.save(), with the record saved *)
  | EvCreate (s : Scaleset.t)        (* Scaleset.create(...), with its result *)
  | EvSetShutdown (n : Node.t).      (* node.set_shutdown() *)

Inductive Exn : Set :=
  | RegionIsMissing                  (* raise Exception("Region is missing") *)
  | ZeroDivisionError.               (* nodes_needed / 0 *)

(** What a run leaves behind. *)
Record Run : Type := mkRun {
  run_scalesets : list Scaleset.t;   (* the scaleset objects, in list order *)
  run_log : list Event;              (* calls issued, in program order *)
  run_raised : option Exn            (* None: returned normally *)
}.

(** Scalesets created during a run. *)
Definition created (log : list Event) : list Scaleset.t :=
  omap (fun e => match e with EvCreate s => Some s | _ => None end) log.

Definition sum_sizes (l : list Scaleset.t) : Z :=
  foldr (fun s acc => Scaleset.size s + acc) 0 l.

(** Python truthiness of an optional integer and of an optional string. *)
Definition truthy_int (o : option Z) : bool :=
  match o with
  | Some v => negb (v =? 0)
  | None => false
  end.

Definition truthy_str (o : option string) : bool :=
  match o with
  | Some s => negb (String.eqb s EmptyString)
  | None => false
  end.

(** [math.ceil(a / b)] on integers: [None] stands for [ZeroDivisionError].
    [a / b] is the double nearest to the quotient, so for operands below
    [2^53] its ceiling is the ceiling of the exact quotient, which is what is
    modelled. [Z.div] rounds towards minus infinity for either sign of [b]. *)
Definition py_ceil_div (a b : Z) : option Z :=
  if b =? 0 then None else Some (- ((- a) `div` b)).

(** ** Demand estimation *)

(** [get_vm_count], lines 103-114. *)
Fixpoint get_vm_count (tasks : list Task.t) : Z :=
  match tasks with
  | [] => 0
  | task :: rest =>
      match Task.get_pool task, Task.config_pool task with
      | Some _, Some task_pool => TaskPool.count task_pool + get_vm_count rest
      | _, _ => get_vm_count rest
      end
  end.

(** Lines 128-131 of [main]: the desired total size of the pool. *)
Definition desired_size (cfg : AutoScaleConfig.t) (tasks : list Task.t) : Z :=
  let num_of_tasks := get_vm_count tasks in
  let nodes_needed := Z.max num_of_tasks (AutoScaleConfig.min_size cfg) in
  if truthy_int (AutoScaleConfig.max_size cfg)
  then Z.min nodes_needed (default 0 (AutoScaleConfig.max_size cfg))
  else nodes_needed.

Section PoolResize.

(** The collaborators whose code lies outside this module. *)

(** [ScalesetState.modifying()], as the membership test [state in ...]. *)
Variable modifying : ScalesetState -> bool.

(** [Scaleset.scaleset_max_size(image)]. *)
Variable scaleset_max_size : string -> Z.

(** The state in which [Scaleset.create] leaves a new scaleset. *)
Variable created_state : ScalesetState.

(** The identifiers given to new scalesets, in the order they are drawn. *)
Variable uuid4 : nat -> string.

(** [Node.search_states(scaleset_id=..., states=[NodeState.free])]. *)
Variable free_nodes : string -> list Node.t.

(** [Task.get_tasks_by_pool_name(name)]. *)
Variable get_tasks_by_pool_name : string -> list Task.t.

(** Modelled from the spec: [Scaleset.max_size()] is not in the source;
    the specification describes it as the maximum size derived from the
    scaleset's image. *)
Definition Scaleset_max_size (s : Scaleset.t) : Z :=
  scaleset_max_size (Scaleset.image s).

(** Modelled from the spec: [Scaleset.create] is not in the source; it
    builds the scaleset from the fields it is given, under a new
    identifier. *)
Definition Scaleset_create (id : string) (pool_name vm_sku image region : string)
    (size : Z) (spot_instances : bool) (tags : gmap string string) : Scaleset.t :=
  Scaleset.mk id pool_name created_state size image vm_sku region
              spot_instances tags.

(** ** Scale-up *)

(** The cap of an existing scaleset (line 27) and of a new one (lines
    52-55). *)
Definition fill_cap (cfg : AutoScaleConfig.t) (s : Scaleset.t) : Z :=
  Z.min (Scaleset_max_size s) (AutoScaleConfig.scaleset_size cfg).

Definition create_cap (cfg : AutoScaleConfig.t) : Z :=
  Z.min (scaleset_max_size (AutoScaleConfig.image cfg))
        (AutoScaleConfig.scaleset_size cfg).

(** Lines 32-41: the update of one running scaleset below its cap. Returns
    the scaleset as saved and the demand still open. *)
Definition fill_one (max_size : Z) (scaleset : Scaleset.t) (nodes_needed : Z)
    : Scaleset.t * Z :=
  let current_size := Scaleset.size scaleset in
  let '(resized, remaining) :=
    if nodes_needed <=? max_size - current_size
    then (Scaleset.set_size scaleset (current_size + nodes_needed), 0)
    else (Scaleset.set_size scaleset max_size,
          nodes_needed - (max_size - current_size)) in
  (Scaleset.set_state resized resize, remaining).

(** The first loop, lines 24-47. The third component is [None] when the
    function returned from inside the loop ([nodes_needed == 0]) and
    [Some n] when the loop ran to its end with [n] nodes still needed. *)
Fixpoint scale_up_fill (cfg : AutoScaleConfig.t) (scalesets : list Scaleset.t)
    (nodes_needed : Z) : list Scaleset.t * list Event * option Z :=
  match scalesets with
  | [] => ([], [], Some nodes_needed)
  | scaleset :: rest =>
      let max_size := fill_cap cfg scaleset in
      if bool_decide (Scaleset.state scaleset = running)
         && (Scaleset.size scaleset <? max_size)
      then
        let '(saved, remaining) := fill_one max_size scaleset nodes_needed in
        if remaining =? 0
        then (saved :: rest, [EvSave saved], None)
        else
          let '(rest', log, out) := scale_up_fill cfg rest remaining in
          (saved :: rest', EvSave saved :: log, out)
      else
        let '(rest', log, out) := scale_up_fill cfg rest nodes_needed in
        (scaleset :: rest', log, out)
  end.

(** The body of the second loop, lines 58-78, run [iterations] times.
    [drawn] counts the identifiers used so far. *)
Fixpoint scale_up_create (pool : Pool.t) (cfg : AutoScaleConfig.t)
    (iterations : nat) (drawn : nat) (nodes_needed : Z)
    : list Event * option Exn :=
  match iterations with
  | O => ([], None)
  | S iterations' =>
      let max_nodes_scaleset :=
        Z.min (Z.min (scaleset_max_size (AutoScaleConfig.image cfg))
                     (AutoScaleConfig.scaleset_size cfg))
              nodes_needed in
      if negb (truthy_str (AutoScaleConfig.region cfg))
      then ([], Some RegionIsMissing)
      else
        let scaleset :=
          Scaleset_create (uuid4 drawn) (Pool.name pool)
            (AutoScaleConfig.vm_sku cfg) (AutoScaleConfig.image cfg)
            (default EmptyString (AutoScaleConfig.region cfg)) max_nodes_scaleset
            (AutoScaleConfig.spot_instances cfg)
            {[ "pool" := Pool.name pool ]} in
        let '(log, raised) :=
          scale_up_create pool cfg iterations' (S drawn)
                          (nodes_needed - max_nodes_scaleset) in
        (EvCreate scaleset :: EvSave scaleset :: log, raised)
  end.

(** [scale_up], lines 18-78. *)
Definition scale_up (drawn : nat) (pool : Pool.t) (scalesets : list Scaleset.t)
    (nodes_needed : Z) : Run :=
  match Pool.autoscale pool with
  | None => mkRun scalesets [] None
  | Some autoscale_config =>
      let '(scalesets', log, out) :=
        scale_up_fill autoscale_config scalesets nodes_needed in
      match out with
      | None => mkRun scalesets' log None
      | Some remaining =>
          match py_ceil_div remaining (create_cap autoscale_config) with
          | None => mkRun scalesets' log (Some ZeroDivisionError)
          | Some iterations =>
              let '(log', raised) :=
                scale_up_create pool autoscale_config (Z.to_nat iterations)
                                drawn remaining in
              mkRun scalesets' (log ++ log') raised
          end
      end
  end.

(** ** Scale-down *)

(** The body of the loop of [scale_down], lines 84-100, for one scaleset
    with its free nodes: the scaleset afterwards, the calls issued and the
    value of [nodes_to_remove] afterwards. *)
Definition scale_down_one (scaleset : Scaleset.t) (nodes : list Node.t)
    (nodes_to_remove : Z) : Scaleset.t * list Event * Z :=
  if negb (bool_decide (nodes = [])) && (0 <? nodes_to_remove)
  then
    let max_nodes_remove := Z.min (Z.of_nat (length nodes)) nodes_to_remove in
    if (Scaleset.size scaleset <=? max_nodes_remove)
       && (Z.of_nat (length nodes) =? Scaleset.size scaleset)
    then
      let retired := Scaleset.set_state scaleset shutdown in
      (retired, EvSave retired :: map EvSetShutdown nodes,
       nodes_to_remove - Scaleset.size scaleset)
    else
      let shrunk :=
        Scaleset.set_state
          (Scaleset.set_size scaleset (Scaleset.size scaleset - max_nodes_remove))
          resize in
      (shrunk, [EvSave shrunk], nodes_to_remove - max_nodes_remove)
  else (scaleset, [], nodes_to_remove).

(** [scale_down], lines 81-100. The last component is the value of the
    local [nodes_to_remove] when the loop ends. *)
Fixpoint scale_down (scalesets : list Scaleset.t) (nodes_to_remove : Z)
    : list Scaleset.t * list Event * Z :=
  match scalesets with
  | [] => ([], [], nodes_to_remove)
  | scaleset :: rest =>
      let nodes := free_nodes (Scaleset.scaleset_id scaleset) in
      let '(scaleset', log, remaining) :=
        scale_down_one scaleset nodes nodes_to_remove in
      let '(rest', log', final) := scale_down rest remaining in
      (scaleset' :: rest', log ++ log', final)
  end.

(** ** The tick *)

(** Lines 136-141: the scan for a scaleset in a modifying state. Returns
    the flag [pool_resize] and the value of [nodes_needed] when the loop
    ends. *)
Fixpoint scan_scalesets (scalesets : list Scaleset.t) (nodes_needed : Z)
    : bool * Z :=
  match scalesets with
  | [] => (false, nodes_needed)
  | scaleset :: rest =>
      if modifying (Scaleset.state scaleset)
      then (true, nodes_needed)
      else scan_scalesets rest (nodes_needed - Scaleset.size scaleset)
  end.

(** Lines 120-151: the body of the loop of [main] for one pool, given the
    scalesets [Scaleset.search_by_pool] returned for it. *)
Definition process_pool (drawn : nat) (pool : Pool.t)
    (scalesets : list Scaleset.t) : Run :=
  match Pool.autoscale pool with
  | None => mkRun scalesets [] None
  | Some autoscale =>
      let tasks := get_tasks_by_pool_name (Pool.name pool) in
      let nodes_needed := desired_size autoscale tasks in
      let '(pool_resize, nodes_needed) := scan_scalesets scalesets nodes_needed in
      if pool_resize then mkRun scalesets [] None
      else if 0 <? nodes_needed then scale_up drawn pool scalesets nodes_needed
      else if nodes_needed <? 0 then
        let '(scalesets', log, _) := scale_down scalesets (Z.abs nodes_needed) in
        mkRun scalesets' log None
      else mkRun scalesets [] None
  end.

End PoolResize.

(** ** The tick over all pools *)

(** Modelled from the spec: the persisted scaleset records are kept by an
    external store that is not in the source. [Scaleset.search_by_pool] reads
    the records of one pool; every in-place update of the source is followed by
    [save()], and every created scaleset is saved under the name of the pool,
    so after a pool is processed its records are the scaleset objects as they
    stand, followed by the created ones. *)
Definition search_by_pool (store : gmap string (list Scaleset.t)) (name : string)
    : list Scaleset.t :=
  default [] (store !! name).

Definition persisted (r : Run) : list Scaleset.t :=
  run_scalesets r ++ created (run_log r).

Record Tick : Type := mkTick {
  tick_store : gmap string (list Scaleset.t);  (* the records after the tick *)
  tick_drawn : nat;                            (* identifiers drawn so far *)
  tick_log : list Event;                       (* calls issued, in order *)
  tick_raised : option Exn                     (* the exception that ended it *)
}.

Section Main.

Variable modifying : ScalesetState -> bool.
Variable scaleset_max_size : string -> Z.
Variable created_state : ScalesetState.
Variable uuid4 : nat -> string.
Variable free_nodes : string -> list Node.t.
Variable get_tasks_by_pool_name : string -> list Task.t.

(** [main], lines 117-151, over the pools [Pool.search_states] returned.
    An exception raised while a pool is processed ends the tick. *)
Fixpoint main (pools : list Pool.t) (store : gmap string (list Scaleset.t))
    (drawn : nat) : Tick :=
  match pools with
  | [] => mkTick store drawn [] None
  | pool :: rest =>
      let scalesets := search_by_pool store (Pool.name pool) in
      let r := process_pool modifying scaleset_max_size created_state uuid4
                            free_nodes get_tasks_by_pool_name
                            drawn pool scalesets in
      let store' := <[Pool.name pool := persisted r]> store in
      let drawn' := (drawn + length (created (run_log r)))%nat in
      match run_raised r with
      | Some e => mkTick store' drawn' (run_log r) (Some e)
      | None =>
          let t := main rest store' drawn' in
          mkTick (tick_store t) (tick_drawn t) (run_log r ++ tick_log t)
                 (tick_raised t)
      end
  end.

End Main.

(** Modelled from the spec: [ScalesetState.modifying()] is not in the source;
    the specification names the states of a scaleset in transition as
    resizing and shutting down. *)
Definition modifying_spec (st : ScalesetState) : bool :=
  match st with
  | resize | shutdown => true
  | _ => false
  end.

(** ** Observations used in the statements *)

(** The sum of the size changes between the scalesets before a run and the
    same scalesets after it, position by position. *)
Definition size_increases (before after : list Scaleset.t) : Z :=
  foldr Z.add 0
    (zip_with (fun s s' => Scaleset.size s' - Scaleset.size s) before after).

(** The sum, over the tasks that [get_vm_count] accepts, of the requested
    node counts, written with [filter] and [map]. *)
Definition counted (task : Task.t) : bool :=
  bool_decide (is_Some (Task.get_pool task))
  && bool_decide (is_Some (Task.config_pool task)).

Definition requested (task : Task.t) : Z :=
  from_option TaskPool.count 0 (Task.config_pool task).

Definition task_demand (tasks : list Task.t) : Z :=
  foldr Z.add 0 (map requested (filter (fun t => counted t = true) tasks)).

(** The scalesets that the scan of [main] subtracts: those enumerated before
    the first one in a modifying state. *)
Fixpoint scanned (modifying : ScalesetState -> bool) (scalesets : list Scaleset.t)
    : list Scaleset.t :=
  match scalesets with
  | [] => []
  | s :: rest =>
      if modifying (Scaleset.state s) then [] else s :: scanned modifying rest
  end.

Definition is_busy (modifying : ScalesetState -> bool)
    (scalesets : list Scaleset.t) : bool :=
  existsb (fun s => modifying (Scaleset.state s)) scalesets.

(** The number of free nodes of a scaleset, and, for a run of [scale_down],
    the amount each scaleset takes off [nodes_to_remove], in list order. *)
Definition free_count (free_nodes : string -> list Node.t) (s : Scaleset.t) : Z :=
  Z.of_nat (length (free_nodes (Scaleset.scaleset_id s))).

Fixpoint removals (free_nodes : string -> list Node.t)
    (scalesets : list Scaleset.t) (nodes_to_remove : Z) : list Z :=
  match scalesets with
  | [] => []
  | s :: rest =>
      let remaining :=
        (scale_down_one s (free_nodes (Scaleset.scaleset_id s)) nodes_to_remove).2 in
      (nodes_to_remove - remaining) :: removals free_nodes rest remaining
  end.

(** The free nodes of the scalesets a run of [scale_down] reclaimed from. *)
Definition free_of_reclaimed (free_nodes : string -> list Node.t)
    (scalesets : list Scaleset.t) (removed : list Z) : Z :=
  foldr Z.add 0
    (zip_with (fun s r => if r =? 0 then 0 else free_count free_nodes s)
              scalesets removed).

(** The condition of the retirement branch, line 89. *)
Definition retire_cond (s : Scaleset.t) (nodes : list Node.t)
    (nodes_to_remove : Z) : Prop :=
  Scaleset.size s <= Z.min (Z.of_nat (length nodes)) nodes_to_remove
  /\ Z.of_nat (length nodes) = Scaleset.size s.

(** What the first loop of [scale_up] may do to one scaleset: nothing, or
    raise a running scaleset that is below its cap, to at most the cap, and
    mark it. *)
Definition filled (scaleset_max_size : string -> Z) (cfg : AutoScaleConfig.t)
    (s s' : Scaleset.t) : Prop :=
  s' = s
  \/ (Scaleset.state s = running
      /\ Scaleset.size s < fill_cap scaleset_max_size cfg s
      /\ Scaleset.state s' = resize
      /\ Scaleset.size s' <= fill_cap scaleset_max_size cfg s
      /\ s' = Scaleset.set_state (Scaleset.set_size s (Scaleset.size s')) resize).

(** The demand still open when the first loop of [scale_up] is left. *)
Definition open_demand (out : option Z) : Z := default 0 out.

(** The room the running scalesets have under their caps: what the first
    loop of [scale_up] can place before any scaleset has to be created. *)
Fixpoint room (scaleset_max_size : string -> Z) (cfg : AutoScaleConfig.t)
    (scalesets : list Scaleset.t) : Z :=
  match scalesets with
  | [] => 0
  | s :: rest =>
      (if bool_decide (Scaleset.state s = running)
          && (Scaleset.size s <? fill_cap scaleset_max_size cfg s)
       then fill_cap scaleset_max_size cfg s - Scaleset.size s
       else 0)
      + room scaleset_max_size cfg rest
  end.

(** Two records of the same scaleset: everything but size and state agrees. *)
Definition same_scaleset (s s' : Scaleset.t) : Prop :=
  Scaleset.scaleset_id s' = Scaleset.scaleset_id s
  /\ Scaleset.pool_name s' = Scaleset.pool_name s
  /\ Scaleset.image s' = Scaleset.image s
  /\ Scaleset.vm_sku s' = Scaleset.vm_sku s
  /\ Scaleset.region s' = Scaleset.region s
  /\ Scaleset.spot_instances s' = Scaleset.spot_instances s
  /\ Scaleset.tags s' = Scaleset.tags s.

(** The nodes that were told to shut down during a run. *)
Definition shut_down (log : list Event) : list Node.t :=
  omap (fun e => match e with EvSetShutdown n => Some n | _ => None end) log.

(** The records handed to [save()] during a run. *)
Definition saved (log : list Event) : list Scaleset.t :=
  omap (fun e => match e with EvSave s => Some s | _ => None end) log.

(** A run keeps memory and store in step: each scaleset is still the same
    scaleset and is either untouched or among the records saved; each created
    scaleset was saved; and each record saved is one the run leaves behind. *)
Definition saved_as_left (before : list Scaleset.t) (r : Run) : Prop :=
  Forall2 (fun s s' => same_scaleset s s' /\ (s' = s \/ s' ∈ saved (run_log r)))
          before (run_scalesets r)
  /\ (forall c, c ∈ created (run_log r) -> c ∈ saved (run_log r))
  /\ (forall s, s ∈ saved (run_log r) -> s ∈ persisted r).

(** ** Concrete fleets used in the examples *)

Module Examples.

Definition max_size_1000 (_ : string) : Z := 1000.
Definition numbered (prefix : string) (n : nat) : string :=
  prefix +:+ String (Ascii.ascii_of_nat (48 + n)) EmptyString.
Definition new_ids (n : nat) : string := numbered "new" n.
Definition init : ScalesetState := other_state "init".
Definition no_tasks (_ : string) : list Task.t := [].
Definition no_free_nodes (_ : string) : list Node.t := [].

Definition config (max_size : option Z) (min_size : Z) (region : option string)
    (scaleset_size : Z) : AutoScaleConfig.t :=
  AutoScaleConfig.mk "ubuntu" max_size min_size region scaleset_size false
                     "Standard_D2s_v3".

Definition scaleset (id : string) (st : ScalesetState) (size : Z) : Scaleset.t :=
  Scaleset.mk id "linux" st size "ubuntu" "Standard_D2s_v3" "eastus" false
              {[ "pool" := "linux" ]}.

Definition pool (name : string) (cfg : AutoScaleConfig.t) : Pool.t :=
  Pool.mk name (Some cfg).

Definition task (count : Z) : Task.t :=
  Task.mk (Some (Pool.mk "linux" None)) (Some (TaskPool.mk count "linux")).

Definition nodes_of (id : string) (n : nat) : list Node.t :=
  map (fun i => Node.mk (numbered "vm" i) id) (seq 0 n).

(** [n] free nodes in scaleset ["a"], none elsewhere. *)
Definition free_in_a (n : nat) (id : string) : list Node.t :=
  if String.eqb id "a" then nodes_of "a" n else [].

(** The pool of the scenarios: at least 2 and at most 10 nodes, scalesets of
    5 nodes. *)
Definition cfg_2_10_5 : AutoScaleConfig.t := config (Some 10) 2 (Some "eastus") 5.

(** The same pool asking for at least 4 nodes. *)
Definition cfg_4_10_5 : AutoScaleConfig.t := config (Some 10) 4 (Some "eastus") 5.

(** The same without a region, and asking for at least 7 nodes. *)
Definition cfg_no_region : AutoScaleConfig.t := config (Some 10) 7 None 5.

(** A target scaleset size of zero. *)
Definition cfg_zero_size : AutoScaleConfig.t := config None 1 (Some "eastus") 0.

(** A maximum size set to zero. *)
Definition cfg_max_zero : AutoScaleConfig.t := config (Some 0) 0 (Some "eastus") 5.

(** One running scaleset of 5 nodes in the store. *)
Definition store_a5 : gmap string (list Scaleset.t) :=
  {[ "linux" := [scaleset "a" running 5] ]}.

(** One running scaleset of 3 nodes for ["linux"], nothing for ["windows"]. *)
Definition store_a3 : gmap string (list Scaleset.t) :=
  {[ "linux" := [scaleset "a" running 3] ]}.

(** Two pools; the tasks of ["linux"] ask for 7 nodes. *)
Definition two_pools (linux : AutoScaleConfig.t) : list Pool.t :=
  [pool "linux" linux; pool "windows" cfg_2_10_5].

Definition linux_tasks (name : string) : list Task.t :=
  if String.eqb name "linux" then [task 4; task 3] else [].

(** Two running scalesets of 3 and 4 nodes: room for 3 more under a cap
    of 5. *)
Definition two_running : list Scaleset.t :=
  [scaleset "a" running 3; scaleset "b" running 4].

End Examples.

(** ** Properties *)

Section Properties.

Variable modifying : ScalesetState -> bool.
Variable scaleset_max_size : string -> Z.
Variable created_state : ScalesetState.
Variable uuid4 : nat -> string.
Variable free_nodes : string -> list Node.t.
Variable get_tasks_by_pool_name : string -> list Task.t.

(** Inside this section the operations are written without the collaborators
    they are applied to; the [_def] names unfold the operations themselves. *)
Local Abbreviation create_cap_def := create_cap (only parsing).
Local Abbreviation scale_up_def := scale_up (only parsing).
Local Abbreviation process_pool_def := process_pool (only parsing).
Local Abbreviation free_of_reclaimed_def := free_of_reclaimed (only parsing).

Local Abbreviation fill_cap := (fill_cap scaleset_max_size).
Local Abbreviation filled := (filled scaleset_max_size).
Local Abbreviation create_cap := (create_cap scaleset_max_size).
Local Abbreviation scale_up_fill := (scale_up_fill scaleset_max_size).
Local Abbreviation scale_up_create :=
  (scale_up_create scaleset_max_size created_state uuid4).
Local Abbreviation scale_up := (scale_up scaleset_max_size created_state uuid4).
Local Abbreviation scale_down := (scale_down free_nodes).
Local Abbreviation scan_scalesets := (scan_scalesets modifying).
Local Abbreviation process_pool :=
  (process_pool modifying scaleset_max_size created_state uuid4 free_nodes
                get_tasks_by_pool_name).

(** *** The first loop of scale-up *)

Lemma fill_one_size max_size s n s' remaining :
  fill_one max_size s n = (s', remaining) ->
  Scaleset.size s' - Scaleset.size s = n - remaining
  /\ Scaleset.state s' = resize
  /\ s' = Scaleset.set_state (Scaleset.set_size s (Scaleset.size s')) resize.
Proof.
  unfold fill_one. destruct (n <=? max_size - Scaleset.size s);
    intros [= <- <-]; simpl; repeat split; lia.
Qed.

Lemma fill_one_bounds max_size s n s' remaining :
  Scaleset.size s < max_size ->
  fill_one max_size s n = (s', remaining) ->
  Scaleset.size s' <= max_size /\ (0 < n -> 0 <= remaining).
Proof.
  unfold fill_one. intros Hlt.
  destruct (n <=? max_size - Scaleset.size s) eqn:E;
    intros [= <- <-]; simpl; lia.
Qed.

Lemma scale_up_fill_length cfg scalesets n scalesets' log out :
  scale_up_fill cfg scalesets n = (scalesets', log, out) ->
  length scalesets' = length scalesets.
Proof.
  revert n scalesets' log out.
  induction scalesets as [|s rest IH]; intros n scalesets' log out; simpl.
  - by intros [= <- <- <-].
  - destruct (bool_decide _ && _).
    + destruct (fill_one _ _ _) as [saved remaining].
      destruct (remaining =? 0).
      * by intros [= <- <- <-].
      * destruct (scale_up_fill cfg rest remaining) as [[rest' log'] out'] eqn:E.
        intros [= <- <- <-]. simpl. f_equal. eauto.
    + destruct (scale_up_fill cfg rest n) as [[rest' log'] out'] eqn:E.
      intros [= <- <- <-]. simpl. f_equal. eauto.
Qed.

Lemma scale_up_fill_filled cfg scalesets n scalesets' log out :
  scale_up_fill cfg scalesets n = (scalesets', log, out) ->
  Forall2 (filled cfg) scalesets scalesets'.
Proof.
  revert n scalesets' log out.
  induction scalesets as [|s rest IH]; intros n scalesets' log out; simpl.
  - intros [= <- <- <-]. constructor.
  - destruct (bool_decide _ && _) eqn:Hguard.
    + apply andb_true_iff in Hguard as [Hrun Hlt].
      apply bool_decide_eq_true in Hrun. apply Z.ltb_lt in Hlt.
      destruct (fill_one _ _ _) as [saved remaining] eqn:Hone.
      destruct (fill_one_size _ _ _ _ _ Hone) as (_ & Hst & Hsaved).
      destruct (fill_one_bounds _ _ _ _ _ Hlt Hone) as [Hle _].
      assert (filled cfg s saved) by (right; done).
      destruct (remaining =? 0).
      * intros [= <- <- <-]. constructor; [done|].
        apply Forall2_same_length_lookup_2; [done|].
        intros i x y Hx Hy. left. congruence.
      * destruct (scale_up_fill cfg rest remaining) as [[rest' log'] out'] eqn:E.
        intros [= <- <- <-]. constructor; eauto.
    + destruct (scale_up_fill cfg rest n) as [[rest' log'] out'] eqn:E.
      intros [= <- <- <-]. constructor; [by left | eauto].
Qed.

Lemma size_increases_refl l : size_increases l l = 0.
Proof. induction l as [|s l IH]; unfold size_increases in *; simpl; lia. Qed.

Lemma size_increases_cons s s' l l' :
  size_increases (s :: l) (s' :: l')
  = Scaleset.size s' - Scaleset.size s + size_increases l l'.
Proof. reflexivity. Qed.

Lemma size_increases_sum l l' :
  length l = length l' ->
  size_increases l l' = sum_sizes l' - sum_sizes l.
Proof.
  revert l'. induction l as [|s l IH]; intros [|s' l']; try done.
  intros [= Hlen]. rewrite size_increases_cons, IH by done.
  unfold sum_sizes. simpl. lia.
Qed.

Lemma scale_up_fill_conserves cfg scalesets n scalesets' log out :
  scale_up_fill cfg scalesets n = (scalesets', log, out) ->
  size_increases scalesets scalesets' = n - open_demand out.
Proof.
  revert n scalesets' log out.
  induction scalesets as [|s rest IH]; intros n scalesets' log out; simpl.
  - intros [= <- <- <-]. unfold size_increases. simpl. lia.
  - destruct (bool_decide _ && _) eqn:Hguard.
    + destruct (fill_one _ _ _) as [saved remaining] eqn:Hone.
      destruct (fill_one_size _ _ _ _ _ Hone) as (Hsz & _ & _).
      destruct (remaining =? 0) eqn:Hz.
      * intros [= <- <- <-]. apply Z.eqb_eq in Hz.
        rewrite size_increases_cons, size_increases_refl. simpl. lia.
      * destruct (scale_up_fill cfg rest remaining) as [[rest' log'] out'] eqn:E.
        intros [= <- <- <-]. rewrite size_increases_cons.
        rewrite (IH _ _ _ _ E). lia.
    + destruct (scale_up_fill cfg rest n) as [[rest' log'] out'] eqn:E.
      intros [= <- <- <-]. rewrite size_increases_cons.
      rewrite (IH _ _ _ _ E). lia.
Qed.

Lemma scale_up_fill_open cfg scalesets n scalesets' log remaining :
  0 < n ->
  scale_up_fill cfg scalesets n = (scalesets', log, Some remaining) ->
  0 < remaining.
Proof.
  revert n scalesets' log.
  induction scalesets as [|s rest IH]; intros n scalesets' log Hn; simpl.
  - by intros [= <- <- <-].
  - destruct (bool_decide _ && _) eqn:Hguard.
    + apply andb_true_iff in Hguard as [_ Hlt]. apply Z.ltb_lt in Hlt.
      destruct (fill_one _ _ _) as [saved r] eqn:Hone.
      destruct (fill_one_bounds _ _ _ _ _ Hlt Hone) as [_ Hr].
      destruct (r =? 0) eqn:Hz; [done|]. apply Z.eqb_neq in Hz.
      destruct (scale_up_fill cfg rest r) as [[rest' log'] out'] eqn:E.
      intros [= <- <- ->]. eapply (IH r); [lia | done].
    + destruct (scale_up_fill cfg rest n) as [[rest' log'] out'] eqn:E.
      intros [= <- <- ->]. eauto.
Qed.

(** The first loop creates nothing; it saves each scaleset it changes, and
    when it saves nothing the scalesets are as they were. *)
Lemma scale_up_fill_log cfg scalesets n scalesets' log out :
  scale_up_fill cfg scalesets n = (scalesets', log, out) ->
  created log = []
  /\ (log = [] -> scalesets' = scalesets)
  /\ (log <> [] -> Exists (fun s => Scaleset.state s = resize) scalesets').
Proof.
  revert n scalesets' log out.
  induction scalesets as [|s rest IH]; intros n scalesets' log out; simpl.
  - by intros [= <- <- <-].
  - destruct (bool_decide _ && _) eqn:Hguard.
    + destruct (fill_one _ _ _) as [saved remaining] eqn:Hone.
      destruct (fill_one_size _ _ _ _ _ Hone) as (_ & Hst & _).
      destruct (remaining =? 0).
      * intros [= <- <- <-]. repeat split; [done|]. intros _. by left.
      * destruct (scale_up_fill cfg rest remaining) as [[rest' log'] out'] eqn:E.
        intros [= <- <- <-]. destruct (IH _ _ _ _ E) as (Hc & _ & _).
        repeat split; [done | done |]. intros _. by left.
    + destruct (scale_up_fill cfg rest n) as [[rest' log'] out'] eqn:E.
      intros [= <- <- <-]. destruct (IH _ _ _ _ E) as (Hc & Hnil & Hex).
      repeat split; [done | intros ->; by rewrite Hnil | intros ?; right; eauto].
Qed.

(** *** The second loop of scale-up *)

Lemma py_ceil_div_pos a b k :
  0 < b -> py_ceil_div a b = Some k -> (k - 1) * b < a <= k * b.
Proof.
  unfold py_ceil_div. intros Hb. destruct (b =? 0) eqn:E; [lia|].
  intros [= <-].
  pose proof (Z.div_mod (- a) b ltac:(lia)).
  pose proof (Z.mod_pos_bound (- a) b Hb). nia.
Qed.

Lemma py_ceil_div_defined a b : b <> 0 -> is_Some (py_ceil_div a b).
Proof.
  unfold py_ceil_div. intros Hb. destruct (b =? 0) eqn:E; [lia | eauto].
Qed.

Lemma py_ceil_div_neg a b k :
  0 < a -> b < 0 -> py_ceil_div a b = Some k -> k <= 0.
Proof.
  unfold py_ceil_div. intros Ha Hb. destruct (b =? 0) eqn:E; [lia|].
  intros [= <-].
  pose proof (Z.div_mod (- a) b ltac:(lia)).
  pose proof (Z.mod_neg_bound (- a) b Hb). nia.
Qed.

Lemma created_app log log' : created (log ++ log') = created log ++ created log'.
Proof. unfold created. apply omap_app. Qed.

Lemma sum_sizes_app l l' : sum_sizes (l ++ l') = sum_sizes l + sum_sizes l'.
Proof. induction l as [|s l IH]; unfold sum_sizes in *; simpl; lia. Qed.

Lemma scale_up_create_no_region pool cfg iterations drawn n :
  truthy_str (AutoScaleConfig.region cfg) = false ->
  scale_up_create pool cfg iterations drawn n
  = ([], match iterations with O => None | S _ => Some RegionIsMissing end).
Proof. intros Hr. destruct iterations; simpl; [done|]. by rewrite Hr. Qed.

Lemma scale_up_create_region pool cfg iterations drawn n :
  truthy_str (AutoScaleConfig.region cfg) = true ->
  (scale_up_create pool cfg iterations drawn n).2 = None
  /\ length (created (scale_up_create pool cfg iterations drawn n).1) = iterations.
Proof.
  intros Hr. revert drawn n.
  induction iterations as [|k IH]; intros drawn n; simpl; [done|].
  rewrite Hr. simpl.
  destruct (scale_up_create pool cfg k (S drawn) _) as [log raised] eqn:E.
  specialize (IH (S drawn) (n - Z.min (create_cap cfg) n)).
  unfold create_cap_def in IH. rewrite E in IH. simpl in *.
  destruct IH as [-> <-]. done.
Qed.

Lemma scale_up_create_sum pool cfg iterations drawn n :
  truthy_str (AutoScaleConfig.region cfg) = true ->
  0 < create_cap cfg ->
  0 <= n <= Z.of_nat iterations * create_cap cfg ->
  sum_sizes (created (scale_up_create pool cfg iterations drawn n).1) = n.
Proof.
  intros Hr Hcap. revert drawn n.
  induction iterations as [|k IH]; intros drawn n Hn; simpl.
  - unfold sum_sizes. simpl. lia.
  - rewrite Hr. simpl.
    destruct (scale_up_create pool cfg k (S drawn) _) as [log raised] eqn:E.
    specialize (IH (S drawn) (n - Z.min (create_cap cfg) n)).
    unfold create_cap_def in *. rewrite E in IH.
    simpl in *. unfold sum_sizes in *. simpl. rewrite IH; lia.
Qed.

Lemma scale_up_create_capped pool cfg iterations drawn n :
  Forall (fun c => Scaleset.size c <= create_cap cfg)
         (created (scale_up_create pool cfg iterations drawn n).1).
Proof.
  revert drawn n. induction iterations as [|k IH]; intros drawn n; simpl.
  - constructor.
  - destruct (negb _); [constructor|].
    destruct (scale_up_create pool cfg k (S drawn) _) as [log raised] eqn:E.
    specialize (IH (S drawn) (n - Z.min (create_cap cfg) n)).
    unfold create_cap_def in *. rewrite E in IH. simpl in *.
    constructor; [simpl; lia | done].
Qed.

(** [scale_up] unfolded along the way the first loop is left. *)
Lemma scale_up_returned drawn pool cfg scalesets n scalesets' log :
  Pool.autoscale pool = Some cfg ->
  scale_up_fill cfg scalesets n = (scalesets', log, None) ->
  scale_up drawn pool scalesets n = mkRun scalesets' log None.
Proof. intros Hcfg Hfill. unfold scale_up_def. by rewrite Hcfg, Hfill. Qed.

Lemma scale_up_zero_cap drawn pool cfg scalesets n scalesets' log remaining :
  Pool.autoscale pool = Some cfg ->
  scale_up_fill cfg scalesets n = (scalesets', log, Some remaining) ->
  create_cap cfg = 0 ->
  scale_up drawn pool scalesets n = mkRun scalesets' log (Some ZeroDivisionError).
Proof.
  intros Hcfg Hfill Hcap. unfold scale_up_def.
  rewrite Hcfg, Hfill, Hcap. done.
Qed.

Lemma scale_up_creating drawn pool cfg scalesets n scalesets' log remaining k :
  Pool.autoscale pool = Some cfg ->
  scale_up_fill cfg scalesets n = (scalesets', log, Some remaining) ->
  py_ceil_div remaining (create_cap cfg) = Some k ->
  scale_up drawn pool scalesets n
  = mkRun scalesets'
          (log ++ (scale_up_create pool cfg (Z.to_nat k) drawn remaining).1)
          (scale_up_create pool cfg (Z.to_nat k) drawn remaining).2.
Proof.
  intros Hcfg Hfill Hk. unfold scale_up_def.
  rewrite Hcfg, Hfill, Hk. by destruct (scale_up_create _ _ _ _ _).
Qed.

(** *** Scale-up: conservation, caps and errors *)

(** C2. Conservation on scale-up: for a pool with an autoscale
    configuration, any list of scalesets and any positive [nodes_needed],
    when [scale_up] returns without raising, the size increases of the
    existing scalesets plus the sizes of the created scalesets add up to
    [nodes_needed] exactly. The creation cap
    [min(per-image max size, scaleset_size)] of a configuration is not
    negative: the constructor of [AutoScaleConfig] refuses a negative
    [scaleset_size], and a per-image maximum is a number of machines. *)
Theorem scale_up_conservation drawn pool cfg scalesets nodes_needed :
  Pool.autoscale pool = Some cfg ->
  0 < nodes_needed ->
  0 <= create_cap cfg ->
  run_raised (scale_up drawn pool scalesets nodes_needed) = None ->
  size_increases scalesets
                 (run_scalesets (scale_up drawn pool scalesets nodes_needed))
  + sum_sizes (created (run_log (scale_up drawn pool scalesets nodes_needed)))
  = nodes_needed.
Proof.
  intros Hcfg Hn Hcap0.
  destruct (scale_up_fill cfg scalesets nodes_needed)
    as [[scalesets' log] out] eqn:Hfill.
  pose proof (scale_up_fill_conserves _ _ _ _ _ _ Hfill) as Hsum.
  destruct (scale_up_fill_log _ _ _ _ _ _ Hfill) as (Hcreated & _ & _).
  destruct out as [remaining|].
  - pose proof (scale_up_fill_open _ _ _ _ _ _ Hn Hfill) as Hopen.
    destruct (decide (create_cap cfg = 0)) as [Hzero | Hnonzero].
    { by rewrite (scale_up_zero_cap drawn _ _ _ _ _ _ _ Hcfg Hfill Hzero). }
    assert (Hcap : 0 < create_cap cfg) by lia.
    destruct (py_ceil_div_defined remaining (create_cap cfg)) as [k Hk]; [lia|].
    rewrite (scale_up_creating drawn _ _ _ _ _ _ _ _ Hcfg Hfill Hk). simpl.
    intros Hraised.
    destruct (truthy_str (AutoScaleConfig.region cfg)) eqn:Hregion.
    + rewrite created_app, Hcreated. simpl.
      pose proof (py_ceil_div_pos _ _ _ Hcap Hk).
      rewrite scale_up_create_sum; [simpl in Hsum; lia | done | done |].
      rewrite Z2Nat.id; nia.
    + rewrite scale_up_create_no_region in Hraised by done.
      pose proof (py_ceil_div_pos _ _ _ Hcap Hk).
      destruct (Z.to_nat k) eqn:Hk0; [nia | done].
  - rewrite (scale_up_returned drawn _ _ _ _ _ _ Hcfg Hfill). simpl.
    intros _. rewrite Hcreated. simpl in *. unfold sum_sizes. simpl. lia.
Qed.

(** C3. Cap respect: a scaleset whose size [scale_up] increases ends at most
    at [min(scaleset.max_size(), scaleset_size)]; a scaleset already at or
    above that cap is left unchanged, so no size is pushed above the cap;
    and every created scaleset has at most
    [min(scaleset_max_size(image), scaleset_size)] nodes. This holds
    whether or not the run ends by raising. *)
Theorem scale_up_cap_respect drawn pool cfg scalesets nodes_needed :
  Pool.autoscale pool = Some cfg ->
  Forall2 (fun s s' =>
             (Scaleset.size s < Scaleset.size s' ->
              Scaleset.size s' <= fill_cap cfg s)
             /\ (fill_cap cfg s <= Scaleset.size s -> s' = s)
             /\ Scaleset.size s' <= Z.max (Scaleset.size s) (fill_cap cfg s))
          scalesets
          (run_scalesets (scale_up drawn pool scalesets nodes_needed))
  /\ Forall (fun c => Scaleset.size c <= create_cap cfg)
            (created (run_log (scale_up drawn pool scalesets nodes_needed))).
Proof.
  intros Hcfg.
  destruct (scale_up_fill cfg scalesets nodes_needed)
    as [[scalesets' log] out] eqn:Hfill.
  pose proof (scale_up_fill_filled _ _ _ _ _ _ Hfill) as Hfilled.
  destruct (scale_up_fill_log _ _ _ _ _ _ Hfill) as (Hcreated & _ & _).
  assert (Hcaps : Forall2 (fun s s' =>
             (Scaleset.size s < Scaleset.size s' ->
              Scaleset.size s' <= fill_cap cfg s)
             /\ (fill_cap cfg s <= Scaleset.size s -> s' = s)
             /\ Scaleset.size s' <= Z.max (Scaleset.size s) (fill_cap cfg s))
          scalesets scalesets').
  { eapply Forall2_impl; [exact Hfilled|].
    intros s s' [-> | (_ & Hlt & _ & Hle & _)]; repeat split; lia. }
  destruct out as [remaining|].
  - destruct (py_ceil_div remaining (create_cap cfg)) as [k|] eqn:Hk.
    + rewrite (scale_up_creating drawn _ _ _ _ _ _ _ _ Hcfg Hfill Hk). simpl.
      split; [done|]. rewrite created_app, Hcreated. simpl.
      apply scale_up_create_capped.
    + unfold scale_up_def. rewrite Hcfg, Hfill, Hk. simpl.
      split; [done|]. rewrite Hcreated. constructor.
  - rewrite (scale_up_returned drawn _ _ _ _ _ _ Hcfg Hfill). simpl.
    split; [done|]. rewrite Hcreated. constructor.
Qed.

(** C7. Missing region: when demand remains after the first loop and the
    configuration has no region, [scale_up] raises before any scaleset is
    created: the missing-region exception when the creation cap is
    positive, the division error when the cap is zero. The resizes of the
    first loop stay as issued. The creation cap of a configuration is not
    negative: the constructor of [AutoScaleConfig] refuses a negative
    [scaleset_size], and a per-image maximum is a number of machines. *)
Theorem scale_up_missing_region drawn pool cfg scalesets nodes_needed
    scalesets' log remaining :
  Pool.autoscale pool = Some cfg ->
  truthy_str (AutoScaleConfig.region cfg) = false ->
  scale_up_fill cfg scalesets nodes_needed = (scalesets', log, Some remaining) ->
  0 < remaining ->
  0 <= create_cap cfg ->
  scale_up drawn pool scalesets nodes_needed
  = mkRun scalesets' log
          (Some (if create_cap cfg =? 0 then ZeroDivisionError
                 else RegionIsMissing))
  /\ created (run_log (scale_up drawn pool scalesets nodes_needed)) = [].
Proof.
  intros Hcfg Hregion Hfill Hopen Hcap.
  destruct (scale_up_fill_log _ _ _ _ _ _ Hfill) as (Hcreated & _ & _).
  destruct (create_cap cfg =? 0) eqn:Hzero.
  - apply Z.eqb_eq in Hzero.
    rewrite (scale_up_zero_cap drawn _ _ _ _ _ _ _ Hcfg Hfill Hzero). done.
  - apply Z.eqb_neq in Hzero.
    destruct (py_ceil_div_defined remaining (create_cap cfg)) as [k Hk]; [done|].
    rewrite (scale_up_creating drawn _ _ _ _ _ _ _ _ Hcfg Hfill Hk).
    rewrite scale_up_create_no_region by done. simpl.
    pose proof (py_ceil_div_pos remaining (create_cap cfg) k ltac:(lia) Hk).
    destruct (Z.to_nat k) eqn:Hk0; [nia|].
    by rewrite app_nil_r.
Qed.

(** C10. When the first loop leaves demand and the creation cap
    [min(scaleset_max_size(image), scaleset_size)] is zero, the division
    that counts the new scalesets raises, and nothing is created. When the
    cap is positive the division is defined and yields at least one
    iteration: the second loop is entered, so it either raises for the
    missing region or creates a scaleset. *)
Theorem scale_up_creation_cap drawn pool cfg scalesets nodes_needed
    scalesets' log remaining :
  Pool.autoscale pool = Some cfg ->
  scale_up_fill cfg scalesets nodes_needed = (scalesets', log, Some remaining) ->
  0 < remaining ->
  (create_cap cfg = 0 ->
     py_ceil_div remaining (create_cap cfg) = None
     /\ run_raised (scale_up drawn pool scalesets nodes_needed)
        = Some ZeroDivisionError
     /\ created (run_log (scale_up drawn pool scalesets nodes_needed)) = [])
  /\ (0 < create_cap cfg ->
      exists k,
        py_ceil_div remaining (create_cap cfg) = Some k
        /\ 1 <= k
        /\ (run_raised (scale_up drawn pool scalesets nodes_needed)
              = Some RegionIsMissing
            \/ created (run_log (scale_up drawn pool scalesets nodes_needed))
               <> [])).
Proof.
  intros Hcfg Hfill Hopen.
  destruct (scale_up_fill_log _ _ _ _ _ _ Hfill) as (Hcreated & _ & _).
  split.
  - intros Hzero.
    rewrite (scale_up_zero_cap drawn _ _ _ _ _ _ _ Hcfg Hfill Hzero).
    rewrite Hzero. simpl. done.
  - intros Hcap.
    destruct (py_ceil_div_defined remaining (create_cap cfg)) as [k Hk]; [lia|].
    pose proof (py_ceil_div_pos _ _ _ Hcap Hk).
    exists k. split; [done|]. split; [nia|].
    rewrite (scale_up_creating drawn _ _ _ _ _ _ _ _ Hcfg Hfill Hk). simpl.
    destruct (truthy_str (AutoScaleConfig.region cfg)) eqn:Hregion.
    + right. rewrite created_app, Hcreated. simpl.
      destruct (scale_up_create_region pool cfg (Z.to_nat k) drawn remaining Hregion)
        as [_ Hlen].
      intros Hnil. rewrite Hnil in Hlen. simpl in Hlen. nia.
    + left. rewrite scale_up_create_no_region by done. simpl.
      destruct (Z.to_nat k) eqn:Hk0; [nia | done].
Qed.

(** *** Scale-down *)

Local Abbreviation free_count := (free_count free_nodes).
Local Abbreviation removals := (removals free_nodes).
Local Abbreviation free_of_reclaimed := (free_of_reclaimed free_nodes).

(** The three ways through the body of the loop. *)
Lemma scale_down_one_skip s nodes n :
  nodes = [] \/ n <= 0 ->
  scale_down_one s nodes n = (s, [], n).
Proof.
  unfold scale_down_one. intros [-> | Hn].
  - by rewrite bool_decide_eq_true_2.
  - replace (0 <? n) with false by (symmetry; apply Z.ltb_ge; lia).
    by rewrite andb_false_r.
Qed.

Lemma scale_down_one_guard (nodes : list Node.t) n :
  nodes <> [] -> 0 < n ->
  negb (bool_decide (nodes = [])) && (0 <? n) = true.
Proof.
  intros Hnodes Hn. rewrite bool_decide_eq_false_2 by done.
  simpl. by apply Z.ltb_lt.
Qed.

Lemma retire_cond_test s nodes n :
  (Scaleset.size s <=? Z.min (Z.of_nat (length nodes)) n)
  && (Z.of_nat (length nodes) =? Scaleset.size s) = true
  <-> retire_cond s nodes n.
Proof.
  unfold retire_cond. rewrite andb_true_iff, Z.leb_le, Z.eqb_eq. done.
Qed.

Lemma scale_down_one_retire s nodes n :
  nodes <> [] -> 0 < n -> retire_cond s nodes n ->
  scale_down_one s nodes n
  = (Scaleset.set_state s shutdown,
     EvSave (Scaleset.set_state s shutdown) :: map EvSetShutdown nodes,
     n - Scaleset.size s).
Proof.
  intros Hnodes Hn Hcond. unfold scale_down_one.
  rewrite scale_down_one_guard by done.
  apply retire_cond_test in Hcond. by rewrite Hcond.
Qed.

Lemma scale_down_one_shrink s nodes n :
  nodes <> [] -> 0 < n -> ~ retire_cond s nodes n ->
  let removed := Z.min (Z.of_nat (length nodes)) n in
  let shrunk :=
    Scaleset.set_state (Scaleset.set_size s (Scaleset.size s - removed)) resize in
  scale_down_one s nodes n = (shrunk, [EvSave shrunk], n - removed).
Proof.
  intros Hnodes Hn Hcond. unfold scale_down_one.
  rewrite scale_down_one_guard by done.
  destruct (_ && _) eqn:Htest; [|done].
  by apply retire_cond_test in Htest.
Qed.

Lemma retire_cond_dec s nodes n : Decision (retire_cond s nodes n).
Proof. unfold retire_cond. apply _. Qed.

(** One step never takes more than the free nodes, and shrinks the size by
    no more than it takes. *)
Lemma scale_down_one_bounds s nodes n s' log remaining :
  scale_down_one s nodes n = (s', log, remaining) ->
  0 <= Scaleset.size s - Scaleset.size s' <= n - remaining
  /\ n - remaining <= Z.of_nat (length nodes)
  /\ (log = [] -> s' = s /\ remaining = n)
  /\ (log <> [] -> modifying_spec (Scaleset.state s') = true).
Proof.
  destruct (decide (nodes = [])) as [Hnil | Hnodes].
  { rewrite scale_down_one_skip by auto. intros [= <- <- <-]. simpl.
    repeat split; try done; lia. }
  destruct (decide (n <= 0)) as [Hle | Hn].
  { rewrite scale_down_one_skip by auto. intros [= <- <- <-].
    repeat split; try done; lia. }
  destruct (retire_cond_dec s nodes n) as [Hcond | Hcond].
  - rewrite scale_down_one_retire by (done || lia). intros [= <- <- <-].
    destruct Hcond as [Hsz Hlen]. simpl. repeat split; try done; lia.
  - rewrite scale_down_one_shrink by (done || lia). intros [= <- <- <-].
    assert (0 < Z.of_nat (length nodes)) by (destruct nodes; [done | simpl; lia]).
    simpl. repeat split; try done; lia.
Qed.

Lemma scale_down_app l1 l2 n :
  scale_down (l1 ++ l2) n
  = let '(l1', log1, n1) := scale_down l1 n in
    let '(l2', log2, n2) := scale_down l2 n1 in
    (l1' ++ l2', log1 ++ log2, n2).
Proof.
  revert n. induction l1 as [|s l1 IH]; intros n; simpl.
  - by destruct (scale_down l2 n) as [[? ?] ?].
  - destruct (scale_down_one _ _ _) as [[s' log] n'].
    rewrite IH. destruct (scale_down l1 n') as [[l1' log1] n1].
    destruct (scale_down l2 n1) as [[l2' log2] n2].
    by rewrite app_assoc.
Qed.

Lemma scale_down_length scalesets n :
  length (scale_down scalesets n).1.1 = length scalesets.
Proof.
  revert n. induction scalesets as [|s rest IH]; intros n; simpl; [done|].
  destruct (scale_down_one _ _ _) as [[s' log] n'].
  specialize (IH n'). destruct (scale_down rest n') as [[rest' log'] final].
  simpl in *. by f_equal.
Qed.

(** A run of [scale_down] that saves nothing changes nothing; one that
    saves leaves a scaleset resizing or shutting down. *)
Lemma scale_down_log scalesets n :
  ((scale_down scalesets n).1.2 = [] -> (scale_down scalesets n).1.1 = scalesets)
  /\ ((scale_down scalesets n).1.2 <> [] ->
      Exists (fun s => modifying_spec (Scaleset.state s) = true)
             (scale_down scalesets n).1.1)
  /\ created (scale_down scalesets n).1.2 = [].
Proof.
  revert n. induction scalesets as [|s rest IH]; intros n; simpl; [done|].
  destruct (scale_down_one _ _ _) as [[s' log] n'] eqn:Hone.
  destruct (scale_down_one_bounds _ _ _ _ _ _ Hone) as (_ & _ & Hnil & Hmod).
  specialize (IH n'). destruct (scale_down rest n') as [[rest' log'] final].
  simpl in *. destruct IH as (IHnil & IHmod & IHc). repeat split.
  - intros [-> ->]%app_eq_nil. destruct Hnil as [-> _]; [done|].
    by rewrite IHnil.
  - intros Hlog. destruct log as [|e log].
    + right. apply IHmod. by simpl in Hlog.
    + left. by apply Hmod.
  - rewrite created_app, IHc, app_nil_r.
    unfold scale_down_one in Hone.
    destruct (_ && _); [|by injection Hone as <- <- <-].
    destruct (_ && _); injection Hone as <- <- <-; [|done].
    simpl. clear. induction (free_nodes _); done.
Qed.

(** C4. No over-reclamation: for every list of scalesets and every
    [nodes_to_remove], the amount [scale_down] takes from a scaleset is
    between its size reduction and its number of free nodes; these amounts
    add up to what was taken off [nodes_to_remove]; and that total, like the
    total size reduction, is at most the number of free nodes of the
    scalesets something was taken from. *)
Theorem scale_down_no_over_reclamation scalesets nodes_to_remove :
  Forall3 (fun s s' r =>
             0 <= Scaleset.size s - Scaleset.size s' <= r
             /\ r <= free_count s)
          scalesets
          (scale_down scalesets nodes_to_remove).1.1
          (removals scalesets nodes_to_remove)
  /\ nodes_to_remove - (scale_down scalesets nodes_to_remove).2
     = foldr Z.add 0 (removals scalesets nodes_to_remove)
  /\ foldr Z.add 0 (removals scalesets nodes_to_remove)
     <= free_of_reclaimed scalesets (removals scalesets nodes_to_remove)
  /\ - size_increases scalesets (scale_down scalesets nodes_to_remove).1.1
     <= free_of_reclaimed scalesets (removals scalesets nodes_to_remove).
Proof.
  revert nodes_to_remove.
  induction scalesets as [|s rest IH]; intros n; simpl.
  - repeat split; [constructor | lia | done | done].
  - destruct (scale_down_one s (free_nodes (Scaleset.scaleset_id s)) n)
      as [[s' log] n'] eqn:Hone.
    destruct (scale_down_one_bounds _ _ _ _ _ _ Hone) as (Hsz & Hfree & _ & _).
    specialize (IH n').
    destruct (scale_down rest n') as [[rest' log'] final].
    simpl in *. destruct IH as (IH3 & IHsum & IHfree & IHsize).
    unfold free_of_reclaimed_def in *. simpl.
    rewrite size_increases_cons.
    assert (n - n' <= (if n - n' =? 0 then 0 else free_count s)).
    { destruct (n - n' =? 0) eqn:E; [apply Z.eqb_eq in E |]; unfold free_count; lia. }
    repeat split; [constructor; [unfold free_count; lia | done] | lia ..].
Qed.

(** C5. Full-retirement rule: in [scale_down], the scaleset reached with
    [nodes_to_remove] at [remaining] is set to shutting-down, saved with its
    size unchanged, with the shutdown command sent to every one of its free
    nodes, only when [min(free count, remaining) >= size] and
    [free count = size]; where free nodes exist and [remaining > 0] it is
    so exactly when that condition holds, and in every other such case it
    is shrunk by [min(free count, remaining)], set to resizing and saved.
    Without free nodes, or with nothing left to remove, it is untouched. *)
Theorem scale_down_full_retirement pre s post nodes_to_remove
    pre' log_pre remaining :
  scale_down pre nodes_to_remove = (pre', log_pre, remaining) ->
  let nodes := free_nodes (Scaleset.scaleset_id s) in
  let removable := Z.min (Z.of_nat (length nodes)) remaining in
  exists s' log_s remaining' post' log_post final,
    scale_down post remaining' = (post', log_post, final)
    /\ scale_down (pre ++ s :: post) nodes_to_remove
       = (pre' ++ s' :: post', log_pre ++ log_s ++ log_post, final)
    /\ same_scaleset s s'
    /\ (log_s = EvSave (Scaleset.set_state s shutdown)
                :: map EvSetShutdown nodes ->
        retire_cond s nodes remaining /\ nodes <> [] /\ 0 < remaining)
    /\ (shut_down log_s <> []
        \/ (Scaleset.state s' = shutdown /\ Scaleset.state s <> shutdown) ->
        retire_cond s nodes remaining /\ nodes <> [] /\ 0 < remaining)
    /\ (nodes <> [] -> 0 < remaining ->
        (retire_cond s nodes remaining ->
           Scaleset.state s' = shutdown
           /\ Scaleset.size s' = Scaleset.size s
           /\ s' = Scaleset.set_state s shutdown
           /\ log_s = EvSave s' :: map EvSetShutdown nodes
           /\ shut_down log_s = nodes
           /\ remaining' = remaining - Scaleset.size s)
        /\ (~ retire_cond s nodes remaining ->
            Scaleset.state s' = resize
            /\ Scaleset.size s' = Scaleset.size s - removable
            /\ 0 < removable
            /\ s' = Scaleset.set_state
                      (Scaleset.set_size s (Scaleset.size s - removable)) resize
            /\ log_s = [EvSave s']
            /\ remaining' = remaining - removable))
    /\ (nodes = [] \/ remaining <= 0 ->
        s' = s /\ log_s = [] /\ remaining' = remaining).
Proof.
  intros Hpre nodes removable.
  destruct (scale_down_one s nodes remaining) as [[s' log_s] remaining'] eqn:Hone.
  destruct (scale_down post remaining') as [[post' log_post] final] eqn:Hpost.
  exists s', log_s, remaining', post', log_post, final.
  split; [done|]. split.
  { rewrite scale_down_app, Hpre. simpl. fold nodes. by rewrite Hone, Hpost. }
  assert (Hshut : forall l : list Node.t, shut_down (map EvSetShutdown l) = l).
  { intros l. unfold shut_down. induction l as [|x l IH]; [done|].
    simpl. f_equal. exact IH. }
  destruct (decide (nodes = [] \/ remaining <= 0)) as [Hskip | Hguard].
  { rewrite scale_down_one_skip in Hone by done. injection Hone as <- <- <-.
    split; [by repeat split|]. split; [done|]. split.
    - intros [Hsd | [Hst Hne]]; [done | congruence].
    - split; [|done]. intros Hnodes Hpos. destruct Hskip; [done | lia]. }
  assert (Hnodes : nodes <> []) by (intros ?; apply Hguard; by left).
  assert (Hpos : 0 < remaining) by lia.
  assert (Hlen : 0 < Z.of_nat (length nodes))
    by (destruct nodes; [done | simpl; lia]).
  destruct (retire_cond_dec s nodes remaining) as [Hcond | Hcond].
  - rewrite scale_down_one_retire in Hone by done.
    injection Hone as <- <- <-.
    split; [by repeat split|]. split; [done|]. split; [done|].
    split; [|intros [? | ?]; [done | lia]].
    intros _ _. split; [|by intros ?]. intros _.
    repeat split; try done. unfold shut_down. simpl. apply Hshut.
  - pose proof (scale_down_one_shrink s nodes remaining Hnodes Hpos Hcond) as Hshrink.
    simpl in Hshrink. rewrite Hshrink in Hone. injection Hone as <- <- <-.
    split; [by repeat split|]. split; [|split].
    + intros Hlog. exfalso. apply (f_equal length) in Hlog.
      simpl in Hlog. rewrite length_map in Hlog.
      destruct nodes; [done | simpl in Hlog; lia].
    + intros [Hsd | [Hst _]]; [done | simpl in Hst; done].
    + split; [|intros [? | ?]; [done | lia]].
      intros _ _. split; [done|]. intros _.
      repeat split; try done. unfold removable. lia.
Qed.

(** *** Demand and the scan of the tick *)

Lemma get_vm_count_demand tasks : get_vm_count tasks = task_demand tasks.
Proof.
  unfold task_demand. induction tasks as [|task rest IH]; [done|].
  destruct task as [[p|] [tp|]];
    cbn [get_vm_count Task.get_pool Task.config_pool]; rewrite IH.
  - rewrite filter_cons_True by done. done.
  - by rewrite filter_cons_False by done.
  - by rewrite filter_cons_False by done.
  - by rewrite filter_cons_False by done.
Qed.

(** C6 (amended). Demand estimation: [get_vm_count] is the sum of the
    requested counts of the tasks whose pool resolves and whose pool
    reference is a typed one, the others adding nothing; the desired size
    is that sum taken to at least [min_size] and, when [max_size] is set to
    a value other than zero, clamped to at most [max_size]. A [max_size]
    of zero is treated like an unset one. *)
Theorem desired_size_demand cfg tasks :
  get_vm_count tasks = task_demand tasks
  /\ (AutoScaleConfig.max_size cfg = None
      \/ AutoScaleConfig.max_size cfg = Some 0 ->
      desired_size cfg tasks
      = Z.max (task_demand tasks) (AutoScaleConfig.min_size cfg))
  /\ (forall max_size,
        AutoScaleConfig.max_size cfg = Some max_size -> max_size <> 0 ->
        desired_size cfg tasks
        = Z.min (Z.max (task_demand tasks) (AutoScaleConfig.min_size cfg))
                max_size).
Proof.
  unfold desired_size. rewrite get_vm_count_demand.
  split; [done|]. split.
  - by intros [-> | ->].
  - intros m -> Hm. simpl. by apply Z.eqb_neq in Hm as ->.
Qed.

Lemma scan_scalesets_spec scalesets n :
  scan_scalesets scalesets n
  = (is_busy modifying scalesets, n - sum_sizes (scanned modifying scalesets)).
Proof.
  revert n. induction scalesets as [|s rest IH]; intros n; simpl.
  - unfold sum_sizes. simpl. f_equal. lia.
  - destruct (modifying (Scaleset.state s)); simpl.
    + unfold sum_sizes. simpl. f_equal. lia.
    + rewrite IH. unfold sum_sizes. simpl. f_equal. lia.
Qed.

Lemma is_busy_Exists scalesets :
  is_busy modifying scalesets = true
  <-> Exists (fun s => modifying (Scaleset.state s) = true) scalesets.
Proof.
  unfold is_busy. rewrite existsb_exists, Exists_exists.
  setoid_rewrite list_elem_of_In. done.
Qed.

Lemma is_busy_app l l' :
  is_busy modifying (l ++ l') = is_busy modifying l || is_busy modifying l'.
Proof. apply existsb_app. Qed.

Lemma scanned_idle scalesets :
  is_busy modifying scalesets = false -> scanned modifying scalesets = scalesets.
Proof.
  induction scalesets as [|s rest IH]; simpl; [done|].
  destruct (modifying (Scaleset.state s)); simpl; [done|].
  intros H. by rewrite IH.
Qed.

Lemma scanned_busy scalesets :
  is_busy modifying scalesets = true ->
  exists s rest,
    scalesets = scanned modifying scalesets ++ s :: rest
    /\ modifying (Scaleset.state s) = true
    /\ is_busy modifying (scanned modifying scalesets) = false.
Proof.
  induction scalesets as [|s rest IH]; simpl; [done|].
  destruct (modifying (Scaleset.state s)) eqn:Hs; simpl.
  - intros _. by exists s, rest.
  - intros (s0 & rest0 & Heq & Hs0 & Hidle)%IH.
    exists s0, rest0. rewrite Hs. simpl. split; [by f_equal | done].
Qed.

(** C9 (amended). Delta computation: the value of [nodes_needed] after the
    scan is the desired size minus the sizes of the scalesets enumerated
    before the first one in a modifying state, and the busy flag tells
    whether there is such a one. With no scaleset in a modifying state this
    is the desired size minus the sum of all sizes; otherwise the scan
    stops at the first modifying scaleset, whose size, like the sizes of
    those after it, is not subtracted. *)
Theorem scan_delta cfg tasks scalesets :
  let desired := desired_size cfg tasks in
  scan_scalesets scalesets desired
  = (is_busy modifying scalesets,
     desired - sum_sizes (scanned modifying scalesets))
  /\ (is_busy modifying scalesets = false ->
      scan_scalesets scalesets desired = (false, desired - sum_sizes scalesets))
  /\ (is_busy modifying scalesets = true ->
      exists s rest,
        scalesets = scanned modifying scalesets ++ s :: rest
        /\ modifying (Scaleset.state s) = true
        /\ is_busy modifying (scanned modifying scalesets) = false).
Proof.
  intros desired. split; [apply scan_scalesets_spec|]. split.
  - intros Hidle. by rewrite scan_scalesets_spec, Hidle, scanned_idle.
  - apply scanned_busy.
Qed.

Lemma process_pool_busy drawn pool scalesets :
  is_busy modifying scalesets = true ->
  process_pool drawn pool scalesets = mkRun scalesets [] None.
Proof.
  intros Hbusy. unfold process_pool_def.
  destruct (Pool.autoscale pool) as [cfg|]; [|done].
  by rewrite scan_scalesets_spec, Hbusy.
Qed.

(** C1. Busy-pool suppression: when any scaleset of the pool is in a
    modifying state, processing the pool issues no call at all (no save, no
    creation, no node shutdown), changes no scaleset and raises nothing,
    whatever the tasks and the configuration are. *)
Theorem busy_pool_no_mutation drawn pool scalesets :
  Exists (fun s => modifying (Scaleset.state s) = true) scalesets ->
  process_pool drawn pool scalesets = mkRun scalesets [] None.
Proof.
  intros Hbusy%is_busy_Exists. by apply process_pool_busy.
Qed.

(** *** A second run on the records the first run left *)

Lemma scale_up_create_nil pool cfg iterations drawn drawn' n :
  (scale_up_create pool cfg iterations drawn n).1 = [] ->
  scale_up_create pool cfg iterations drawn' n
  = scale_up_create pool cfg iterations drawn n.
Proof.
  destruct (truthy_str (AutoScaleConfig.region cfg)) eqn:Hregion.
  - destruct (scale_up_create_region pool cfg iterations drawn n Hregion)
      as [_ Hlen].
    intros Hnil. rewrite Hnil in Hlen. simpl in Hlen. by subst iterations.
  - intros _. by rewrite !scale_up_create_no_region.
Qed.

(** A run of [scale_up] that issues no call does not depend on the
    identifiers, and leaves the scalesets as they were. *)
Lemma scale_up_quiet drawn drawn' pool scalesets n :
  run_log (scale_up drawn pool scalesets n) = [] ->
  scale_up drawn' pool scalesets n = scale_up drawn pool scalesets n
  /\ run_scalesets (scale_up drawn pool scalesets n) = scalesets.
Proof.
  unfold scale_up_def.
  destruct (Pool.autoscale pool) as [cfg|]; [|done].
  destruct (scale_up_fill cfg scalesets n) as [[scalesets' log] out] eqn:Hfill.
  destruct (scale_up_fill_log _ _ _ _ _ _ Hfill) as (_ & Hnil & _).
  destruct out as [remaining|]; [|simpl; intros ->; by rewrite Hnil].
  destruct (py_ceil_div remaining (create_cap cfg)) as [k|];
    [|simpl; intros ->; by rewrite Hnil].
  destruct (scale_up_create pool cfg (Z.to_nat k) drawn remaining)
    as [log' raised] eqn:Hcreate.
  simpl. intros [-> ->]%app_eq_nil.
  rewrite (scale_up_create_nil _ _ _ drawn drawn') by by rewrite Hcreate.
  rewrite Hcreate. by rewrite Hnil.
Qed.

(** A run of [scale_up] on a pool that is not busy, for a positive demand:
    it issues no call, or it leaves a scaleset resizing, or it returns
    having only created scalesets whose sizes add up to the demand. *)
Lemma scale_up_outcome drawn pool scalesets n :
  0 < n ->
  let r := scale_up drawn pool scalesets n in
  run_log r = []
  \/ Exists (fun s => Scaleset.state s = resize) (run_scalesets r)
  \/ (run_raised r = None /\ run_scalesets r = scalesets
      /\ sum_sizes (created (run_log r)) = n).
Proof.
  intros Hn. unfold scale_up_def.
  destruct (Pool.autoscale pool) as [cfg|]; [|by left].
  destruct (scale_up_fill cfg scalesets n) as [[scalesets' log] out] eqn:Hfill.
  destruct (scale_up_fill_log _ _ _ _ _ _ Hfill) as (Hcreated & Hnil & Hresize).
  pose proof (scale_up_fill_conserves _ _ _ _ _ _ Hfill) as Hsum.
  destruct log as [|e log]; [|right; left]; cycle 1.
  { assert (Hex : Exists (fun s => Scaleset.state s = resize) scalesets')
      by by apply Hresize.
    destruct out as [remaining|]; [|done].
    destruct (py_ceil_div remaining (create_cap cfg)) as [k|]; [|done].
    by destruct (scale_up_create _ _ _ _ _). }
  rewrite Hnil in * by done. rewrite size_increases_refl in Hsum.
  destruct out as [remaining|]; [|by left]. simpl in Hsum.
  assert (remaining = n) as -> by lia.
  destruct (py_ceil_div n (create_cap cfg)) as [k|] eqn:Hk; [|by left].
  destruct (truthy_str (AutoScaleConfig.region cfg)) eqn:Hregion.
  - destruct (scale_up_create_region pool cfg (Z.to_nat k) drawn n Hregion)
      as [Hraised Hlen].
    destruct (decide (0 < create_cap cfg)) as [Hcap | Hcap].
    + right. right.
      pose proof (scale_up_create_sum pool cfg (Z.to_nat k) drawn n Hregion Hcap)
        as Hcsum.
      pose proof (py_ceil_div_pos _ _ _ Hcap Hk).
      destruct (scale_up_create pool cfg (Z.to_nat k) drawn n) as [log' raised].
      simpl in *. repeat split; [done|]. apply Hcsum. rewrite Z2Nat.id; nia.
    + left. assert (k <= 0).
      { apply (py_ceil_div_neg n (create_cap cfg)); [done | | done].
        unfold py_ceil_div in Hk. destruct (create_cap cfg =? 0) eqn:E; [done|].
        apply Z.eqb_neq in E. lia. }
      replace (Z.to_nat k) with O by lia. done.
  - left. by rewrite scale_up_create_no_region.
Qed.

Lemma persisted_quiet r : run_log r = [] -> persisted r = run_scalesets r.
Proof. unfold persisted. intros ->. apply app_nil_r. Qed.

(** A run over a pool that issues no call changes no scaleset and does not
    depend on the identifiers. *)
Lemma process_pool_quiet drawn drawn' pool scalesets :
  run_log (process_pool drawn pool scalesets) = [] ->
  process_pool drawn' pool scalesets = process_pool drawn pool scalesets
  /\ run_scalesets (process_pool drawn pool scalesets) = scalesets.
Proof.
  unfold process_pool_def.
  destruct (Pool.autoscale pool) as [cfg|] eqn:Hcfg; [|done].
  destruct (scan_scalesets scalesets _) as [busy n].
  destruct busy; [done|].
  destruct (0 <? n); [apply scale_up_quiet|].
  destruct (n <? 0); [|done].
  pose proof (scale_down_log scalesets (Z.abs n)) as (Hnil & _ & _).
  destruct (scale_down scalesets (Z.abs n)) as [[scalesets' log] final].
  simpl in *. intros ->. by rewrite Hnil.
Qed.

(** What a first run over a pool leaves: no call at all, or a pool that is
    busy, or an idle pool that was only given new scalesets, whose sizes
    add up to the demand that was open. *)
Lemma process_pool_outcome drawn pool scalesets :
  modifying resize = true ->
  modifying shutdown = true ->
  let r := process_pool drawn pool scalesets in
  run_log r = []
  \/ is_busy modifying (persisted r) = true
  \/ (exists cfg,
        Pool.autoscale pool = Some cfg
        /\ run_raised r = None /\ run_scalesets r = scalesets
        /\ sum_sizes (created (run_log r))
           = desired_size cfg (get_tasks_by_pool_name (Pool.name pool))
             - sum_sizes scalesets).
Proof.
  intros Hresize Hshutdown.
  assert (Hmod : forall l,
             Exists (fun s => modifying_spec (Scaleset.state s) = true) l ->
             is_busy modifying l = true).
  { intros l Hex. apply is_busy_Exists. eapply Exists_impl; [exact Hex|].
    intros s. simpl. by destruct (Scaleset.state s). }
  unfold process_pool_def.
  destruct (Pool.autoscale pool) as [cfg|] eqn:Hcfg; [|by left].
  rewrite scan_scalesets_spec.
  destruct (is_busy modifying scalesets) eqn:Hidle; [by left|].
  rewrite scanned_idle by done.
  set (n := desired_size cfg (get_tasks_by_pool_name (Pool.name pool))
            - sum_sizes scalesets).
  destruct (0 <? n) eqn:Hup.
  - apply Z.ltb_lt in Hup.
    destruct (scale_up_outcome drawn pool scalesets n Hup)
      as [Hnil | [Hex | (Hraised & Hsame & Hsum)]].
    + by left.
    + right. left. unfold persisted.
      rewrite is_busy_app. apply orb_true_iff. left.
      apply Hmod. eapply Exists_impl; [exact Hex|].
      intros s. simpl. by intros ->.
    + right. right. by exists cfg.
  - destruct (n <? 0); [|by left].
    pose proof (scale_down_log scalesets (Z.abs n)) as (_ & Hex & Hc).
    destruct (scale_down scalesets (Z.abs n)) as [[scalesets' log] final].
    simpl in *. destruct log as [|e log]; [by left|].
    right. left. unfold persisted. simpl.
    rewrite is_busy_app. apply orb_true_iff. left. by apply Hmod, Hex.
Qed.

(** The per-pool step of the second run: on the records a first run left,
    with nothing else changed, processing the pool again issues no call
    and changes no record; it raises only if the first run raised. *)
Lemma process_pool_again drawn drawn' pool scalesets :
  modifying resize = true ->
  modifying shutdown = true ->
  let r := process_pool drawn pool scalesets in
  let r' := process_pool drawn' pool (persisted r) in
  run_log r' = [] /\ run_scalesets r' = persisted r
  /\ (run_raised r = None -> run_raised r' = None).
Proof.
  intros Hresize Hshutdown r r'.
  destruct (process_pool_outcome drawn pool scalesets Hresize Hshutdown)
    as [Hquiet | [Hbusy | (cfg & Hcfg & Hraised & Hsame & Hsum)]];
    fold r in Hquiet || fold r in Hbusy || fold r in Hraised, Hsame, Hsum.
  - destruct (process_pool_quiet drawn drawn' pool scalesets Hquiet) as [Heq Hsame].
    fold r in Heq, Hsame. unfold r'.
    rewrite persisted_quiet, Hsame by done. by rewrite Heq.
  - unfold r'. by rewrite process_pool_busy.
  - unfold r'. clearbody r. clear r'.
    destruct (is_busy modifying (persisted r)) eqn:Hb;
      [by rewrite process_pool_busy|].
    unfold process_pool_def. rewrite Hcfg, scan_scalesets_spec, Hb.
    rewrite scanned_idle by done.
    assert (desired_size cfg (get_tasks_by_pool_name (Pool.name pool))
            - sum_sizes (persisted r) = 0) as ->.
    { unfold persisted. rewrite sum_sizes_app, Hsame, Hsum. lia. }
    simpl. done.
Qed.

(** *** The tick, run twice *)

Local Abbreviation main :=
  (main modifying scaleset_max_size created_state uuid4 free_nodes
        get_tasks_by_pool_name).

Lemma main_raised pool rest store drawn e :
  run_raised (process_pool drawn pool (search_by_pool store (Pool.name pool)))
  = Some e ->
  tick_raised (main (pool :: rest) store drawn) = Some e.
Proof. simpl. by intros ->. Qed.

Lemma main_returned pool rest store drawn :
  let r := process_pool drawn pool (search_by_pool store (Pool.name pool)) in
  let t := main rest (<[Pool.name pool := persisted r]> store)
                (drawn + length (created (run_log r)))%nat in
  run_raised r = None ->
  main (pool :: rest) store drawn
  = mkTick (tick_store t) (tick_drawn t) (run_log r ++ tick_log t)
           (tick_raised t).
Proof. simpl. by intros ->. Qed.

(** The records of a pool that the tick does not process stay as they
    are. *)
Lemma main_store_other pools (store : gmap string (list Scaleset.t)) drawn name :
  name ∉ map Pool.name pools ->
  tick_store (main pools store drawn) !! name = store !! name.
Proof.
  revert store drawn. induction pools as [|pool rest IH]; intros store drawn;
    [done|].
  intros [Hne Hrest]%not_elem_of_cons.
  destruct (run_raised (process_pool drawn pool
              (search_by_pool store (Pool.name pool)))) as [e|] eqn:Hraised.
  - simpl. rewrite Hraised. simpl. by rewrite lookup_insert_ne.
  - rewrite main_returned by done. simpl.
    rewrite IH by done. by rewrite lookup_insert_ne.
Qed.

(** C8 (amended). Idempotence: with resizing and shutting-down among the
    modifying states and pools of distinct names, if the first run of the
    loop ends without raising and nothing else changes the records, the
    free nodes or the tasks, a second run issues no call (no save, no
    creation, no node shutdown), raises nothing and leaves every record as
    it is. The second run does not always find [nodes_needed == 0]: a
    pool that was resized or retired is skipped as busy, and a deficit
    that no free node covers stays. *)
Theorem main_second_run pools store drawn drawn' :
  modifying resize = true ->
  modifying shutdown = true ->
  NoDup (map Pool.name pools) ->
  tick_raised (main pools store drawn) = None ->
  main pools (tick_store (main pools store drawn)) drawn'
  = mkTick (tick_store (main pools store drawn)) drawn' [] None.
Proof.
  intros Hresize Hshutdown. revert store drawn.
  induction pools as [|pool rest IH]; intros store drawn Hnames; [done|].
  apply NoDup_cons in Hnames as [Hfresh Hnames].
  set (scalesets := search_by_pool store (Pool.name pool)).
  destruct (run_raised (process_pool drawn pool scalesets)) as [e|] eqn:Hraised.
  { by rewrite (main_raised _ _ _ _ e). }
  rewrite (main_returned pool rest store drawn) by done. simpl tick_raised.
  simpl tick_store. fold scalesets.
  set (r := process_pool drawn pool scalesets) in *.
  set (t := main rest _ _).
  intros Hrest.
  assert (Hlook : search_by_pool (tick_store t) (Pool.name pool) = persisted r).
  { unfold search_by_pool, t. rewrite main_store_other by done.
    by rewrite lookup_insert_eq. }
  destruct (process_pool_again drawn drawn' pool scalesets Hresize Hshutdown)
    as (Hlog & Hsets & Hnone).
  fold r in Hlog, Hsets, Hnone. specialize (Hnone Hraised).
  rewrite main_returned; rewrite Hlook; [|done].
  assert (Hsame : <[Pool.name pool := persisted (process_pool drawn' pool (persisted r))]>
                    (tick_store t) = tick_store t).
  { apply insert_id. unfold persisted at 1. rewrite Hlog, Hsets. simpl.
    rewrite app_nil_r. unfold t. rewrite main_store_other by done.
    by rewrite lookup_insert_eq. }
  rewrite Hsame, Hlog. simpl length. rewrite Nat.add_0_r.
  unfold t at 1 2 3 4. rewrite IH by done. done.
Qed.

End Properties.

(** ** The properties at concrete fleets *)

Section Concrete.

Import Examples.

Local Abbreviation scale_up' := (scale_up max_size_1000 init new_ids).
Local Abbreviation scale_up_fill' := (scale_up_fill max_size_1000).
Local Abbreviation create_cap' := (create_cap max_size_1000).
Local Abbreviation fill_cap' := (fill_cap max_size_1000).

(** A pool with a resizing scaleset and nine nodes of demand is left alone. *)
Lemma busy_pool_no_mutation_witness :
  Exists (fun s => modifying_spec (Scaleset.state s) = true)
         [scaleset "a" resize 3]
  /\ process_pool modifying_spec max_size_1000 init new_ids no_free_nodes
                  (fun _ => [task 9]) 0 (pool "linux" cfg_2_10_5)
                  [scaleset "a" resize 3]
     = mkRun [scaleset "a" resize 3] [] None.
Proof.
  assert (H : Exists (fun s => modifying_spec (Scaleset.state s) = true)
                     [scaleset "a" resize 3]) by (left; reflexivity).
  split; [exact H|].
  exact (busy_pool_no_mutation modifying_spec max_size_1000 init new_ids
           no_free_nodes (fun _ => [task 9]) 0 (pool "linux" cfg_2_10_5)
           [scaleset "a" resize 3] H).
Defined.

(** One running scaleset of 3 under a cap of 5, 4 nodes needed: 2 go to the
    scaleset and 2 to a new one. *)
Lemma scale_up_conservation_witness :
  Pool.autoscale (pool "linux" cfg_2_10_5) = Some cfg_2_10_5
  /\ 0 < 4
  /\ 0 <= create_cap' cfg_2_10_5
  /\ run_raised (scale_up' 0%nat (pool "linux" cfg_2_10_5)
                           [scaleset "a" running 3] 4) = None
  /\ size_increases [scaleset "a" running 3]
       (run_scalesets (scale_up' 0%nat (pool "linux" cfg_2_10_5)
                                 [scaleset "a" running 3] 4))
     + sum_sizes (created (run_log (scale_up' 0%nat (pool "linux" cfg_2_10_5)
                                              [scaleset "a" running 3] 4)))
     = 4.
Proof.
  assert (H1 : Pool.autoscale (pool "linux" cfg_2_10_5) = Some cfg_2_10_5)
    by reflexivity.
  assert (H2 : 0 < 4) by lia.
  assert (H3 : 0 <= create_cap' cfg_2_10_5) by (vm_compute; congruence).
  assert (H4 : run_raised (scale_up' 0%nat (pool "linux" cfg_2_10_5)
                             [scaleset "a" running 3] 4) = None)
    by (vm_compute; reflexivity).
  split; [exact H1|]. split; [exact H2|]. split; [exact H3|].
  split; [exact H4|].
  exact (scale_up_conservation max_size_1000 init new_ids 0
           (pool "linux" cfg_2_10_5) cfg_2_10_5 [scaleset "a" running 3] 4
           H1 H2 H3 H4).
Defined.

Lemma scale_up_cap_respect_witness :
  Pool.autoscale (pool "linux" cfg_2_10_5) = Some cfg_2_10_5
  /\ Forall2 (fun s s' =>
                (Scaleset.size s < Scaleset.size s' ->
                 Scaleset.size s' <= fill_cap' cfg_2_10_5 s)
                /\ (fill_cap' cfg_2_10_5 s <= Scaleset.size s -> s' = s)
                /\ Scaleset.size s'
                   <= Z.max (Scaleset.size s) (fill_cap' cfg_2_10_5 s))
             [scaleset "a" running 3; scaleset "b" running 6]
             (run_scalesets
                (scale_up' 0%nat (pool "linux" cfg_2_10_5)
                   [scaleset "a" running 3; scaleset "b" running 6] 4))
  /\ Forall (fun c => Scaleset.size c <= create_cap' cfg_2_10_5)
            (created (run_log
               (scale_up' 0%nat (pool "linux" cfg_2_10_5)
                  [scaleset "a" running 3; scaleset "b" running 6] 4))).
Proof.
  assert (H1 : Pool.autoscale (pool "linux" cfg_2_10_5) = Some cfg_2_10_5)
    by reflexivity.
  split; [exact H1|].
  exact (scale_up_cap_respect max_size_1000 init new_ids 0
           (pool "linux" cfg_2_10_5) cfg_2_10_5
           [scaleset "a" running 3; scaleset "b" running 6] 4 H1).
Defined.

(** A scaleset of 5 nodes, all of them free, and 5 nodes to remove: the
    scaleset is retired. *)
Lemma scale_down_full_retirement_witness :
  scale_down (free_in_a 5) [] 5 = ([], [], 5)
  /\ exists s' log_s remaining' post' log_post final,
       scale_down (free_in_a 5) [] remaining' = (post', log_post, final)
       /\ scale_down (free_in_a 5) ([] ++ [scaleset "a" running 5]) 5
          = ([] ++ s' :: post', [] ++ log_s ++ log_post, final)
       /\ Scaleset.state s' = shutdown
       /\ Scaleset.size s' = 5
       /\ s' = Scaleset.set_state (scaleset "a" running 5) shutdown
       /\ log_s = EvSave s' :: map EvSetShutdown (nodes_of "a" 5)
       /\ shut_down log_s = nodes_of "a" 5
       /\ remaining' = 0.
Proof.
  assert (H1 : scale_down (free_in_a 5) [] 5 = ([], [], 5)) by reflexivity.
  split; [exact H1|].
  destruct (scale_down_full_retirement (free_in_a 5) [] (scaleset "a" running 5)
              [] 5 [] [] 5 H1)
    as (s' & log_s & remaining' & post' & log_post & final
        & Hpost & Hrun & _ & _ & _ & Hguard & _).
  exists s', log_s, remaining', post', log_post, final.
  destruct Hguard as [Hretire _]; [discriminate | lia |].
  destruct Hretire as (Hst & Hsz & Hs & Hlog & Hsd & Hrem).
  { split; vm_compute; congruence. }
  split; [exact Hpost|]. split; [exact Hrun|]. split; [exact Hst|].
  split; [exact Hsz|]. split; [exact Hs|]. split; [exact Hlog|].
  split; [exact Hsd | exact Hrem].
Defined.

(** C6, as stated, fails for a maximum size set to zero: the test
    [if pool.autoscale.max_size] is false for it, so three requested nodes
    give a desired size of three, which is above the maximum. *)
Lemma desired_size_demand_counterexample :
  AutoScaleConfig.max_size cfg_max_zero = Some 0
  /\ desired_size cfg_max_zero [task 3] = 3
  /\ ~ desired_size cfg_max_zero [task 3] <= 0.
Proof. repeat split; vm_compute; congruence. Qed.

(** No region, one running scaleset of 3 under a cap of 5 and 4 nodes
    needed: the scaleset is resized to 5 and saved, then the exception is
    raised with 2 nodes still needed and nothing created. *)
Lemma scale_up_missing_region_witness :
  Pool.autoscale (pool "linux" cfg_no_region) = Some cfg_no_region
  /\ truthy_str (AutoScaleConfig.region cfg_no_region) = false
  /\ scale_up_fill' cfg_no_region [scaleset "a" running 3] 4
     = ([scaleset "a" resize 5], [EvSave (scaleset "a" resize 5)], Some 2)
  /\ 0 < 2
  /\ 0 <= create_cap' cfg_no_region
  /\ scale_up' 0%nat (pool "linux" cfg_no_region) [scaleset "a" running 3] 4
     = mkRun [scaleset "a" resize 5] [EvSave (scaleset "a" resize 5)]
             (Some (if create_cap' cfg_no_region =? 0 then ZeroDivisionError
                    else RegionIsMissing))
  /\ created (run_log (scale_up' 0%nat (pool "linux" cfg_no_region)
                                 [scaleset "a" running 3] 4)) = [].
Proof.
  assert (H1 : Pool.autoscale (pool "linux" cfg_no_region) = Some cfg_no_region)
    by reflexivity.
  assert (H2 : truthy_str (AutoScaleConfig.region cfg_no_region) = false)
    by reflexivity.
  assert (H3 : scale_up_fill' cfg_no_region [scaleset "a" running 3] 4
               = ([scaleset "a" resize 5], [EvSave (scaleset "a" resize 5)],
                  Some 2)) by (vm_compute; reflexivity).
  assert (H4 : 0 < 2) by lia.
  assert (H5 : 0 <= create_cap' cfg_no_region) by (vm_compute; congruence).
  split; [exact H1|]. split; [exact H2|]. split; [exact H3|].
  split; [exact H4|]. split; [exact H5|].
  exact (scale_up_missing_region max_size_1000 init new_ids 0
           (pool "linux" cfg_no_region) cfg_no_region
           [scaleset "a" running 3] 4 _ _ 2 H1 H2 H3 H4 H5).
Defined.

(** A target scaleset size of zero with one node needed: the division
    raises. *)
Lemma scale_up_creation_cap_witness :
  Pool.autoscale (pool "linux" cfg_zero_size) = Some cfg_zero_size
  /\ scale_up_fill' cfg_zero_size [] 1 = ([], [], Some 1)
  /\ 0 < 1
  /\ create_cap' cfg_zero_size = 0
  /\ py_ceil_div 1 (create_cap' cfg_zero_size) = None
  /\ run_raised (scale_up' 0%nat (pool "linux" cfg_zero_size) [] 1)
     = Some ZeroDivisionError
  /\ created (run_log (scale_up' 0%nat (pool "linux" cfg_zero_size) [] 1)) = [].
Proof.
  assert (H1 : Pool.autoscale (pool "linux" cfg_zero_size) = Some cfg_zero_size)
    by reflexivity.
  assert (H2 : scale_up_fill' cfg_zero_size [] 1 = ([], [], Some 1))
    by reflexivity.
  assert (H3 : 0 < 1) by lia.
  assert (H4 : create_cap' cfg_zero_size = 0) by reflexivity.
  split; [exact H1|]. split; [exact H2|]. split; [exact H3|].
  split; [exact H4|].
  exact (proj1 (scale_up_creation_cap max_size_1000 init new_ids 0
                  (pool "linux" cfg_zero_size) cfg_zero_size [] 1 _ _ 1
                  H1 H2 H3) H4).
Defined.

(** C9, as stated, fails when a scaleset is in a modifying state: with a
    running scaleset of 3 followed by a resizing one of 5 and 7 nodes
    desired, the scan stops at the second with [nodes_needed = 4], while
    the desired size minus the sum of all sizes is -1. *)
Lemma scan_delta_counterexample :
  desired_size cfg_no_region [] = 7
  /\ scan_scalesets modifying_spec
       [scaleset "a" running 3; scaleset "b" resize 5]
       (desired_size cfg_no_region [])
     = (true, 4)
  /\ (scan_scalesets modifying_spec
        [scaleset "a" running 3; scaleset "b" resize 5]
        (desired_size cfg_no_region [])).2
     <> desired_size cfg_no_region []
        - sum_sizes [scaleset "a" running 3; scaleset "b" resize 5].
Proof. repeat split; vm_compute; congruence. Qed.

Local Abbreviation main' :=
  (main modifying_spec max_size_1000 init new_ids no_free_nodes).

(** Two pools in need of nodes: the first run resizes a scaleset and
    creates two, the second run does nothing. *)
Lemma main_second_run_witness :
  modifying_spec resize = true
  /\ modifying_spec shutdown = true
  /\ NoDup (map Pool.name (two_pools cfg_2_10_5))
  /\ tick_raised (main' linux_tasks (two_pools cfg_2_10_5) store_a3 0%nat) = None
  /\ length (tick_log (main' linux_tasks (two_pools cfg_2_10_5) store_a3 0%nat))
     = 5%nat
  /\ main' linux_tasks (two_pools cfg_2_10_5)
           (tick_store (main' linux_tasks (two_pools cfg_2_10_5) store_a3 0%nat))
           2%nat
     = mkTick
         (tick_store (main' linux_tasks (two_pools cfg_2_10_5) store_a3 0%nat))
         2%nat [] None.
Proof.
  assert (H1 : modifying_spec resize = true) by reflexivity.
  assert (H2 : modifying_spec shutdown = true) by reflexivity.
  assert (H3 : NoDup (map Pool.name (two_pools cfg_2_10_5))).
  { apply (bool_decide_unpack _). vm_compute. exact I. }
  assert (H4 : tick_raised (main' linux_tasks (two_pools cfg_2_10_5) store_a3
                                  0%nat) = None) by (vm_compute; reflexivity).
  split; [exact H1|]. split; [exact H2|]. split; [exact H3|].
  split; [exact H4|]. split; [vm_compute; reflexivity|].
  exact (main_second_run modifying_spec max_size_1000 init new_ids
           no_free_nodes linux_tasks (two_pools cfg_2_10_5) store_a3 0 2
           H1 H2 H3 H4).
Defined.

(** C8, as stated, fails in both halves. A pool that wants 2 nodes and has
    a running scaleset of 5 with no free node is left as it is by the first
    run, and the second run finds [nodes_needed = -3] again. And when the
    first run is ended by the missing-region exception of the first pool,
    after that pool's scaleset was resized, the second run skips the first
    pool as busy and creates a scaleset for the second one. *)
Lemma main_second_run_counterexample :
  (tick_raised (main' no_tasks [pool "linux" cfg_2_10_5] store_a5 0%nat) = None
   /\ scan_scalesets modifying_spec
        (search_by_pool
           (tick_store (main' no_tasks [pool "linux" cfg_2_10_5] store_a5 0%nat))
           "linux")
        (desired_size cfg_2_10_5 (no_tasks "linux"))
      = (false, -3))
  /\ (tick_raised (main' linux_tasks (two_pools cfg_no_region) store_a3 0%nat)
      = Some RegionIsMissing
      /\ tick_log
           (main' linux_tasks (two_pools cfg_no_region)
              (tick_store
                 (main' linux_tasks (two_pools cfg_no_region) store_a3 0%nat))
              0%nat)
         <> []).
Proof. repeat split; vm_compute; congruence. Qed.

End Concrete.


(** ** Further properties of the allocator, the reclaimer and the tick *)

Section Further.

Variable modifying : ScalesetState -> bool.
Variable scaleset_max_size : string -> Z.
Variable created_state : ScalesetState.
Variable uuid4 : nat -> string.
Variable free_nodes : string -> list Node.t.
Variable get_tasks_by_pool_name : string -> list Task.t.

Local Abbreviation scale_up_def := scale_up (only parsing).
Local Abbreviation process_pool_def := process_pool (only parsing).
Local Abbreviation create_cap_def := create_cap (only parsing).

Local Abbreviation fill_cap := (fill_cap scaleset_max_size).
Local Abbreviation create_cap := (create_cap scaleset_max_size).
Local Abbreviation room := (room scaleset_max_size).
Local Abbreviation scale_up_fill := (scale_up_fill scaleset_max_size).
Local Abbreviation scale_up_create :=
  (scale_up_create scaleset_max_size created_state uuid4).
Local Abbreviation scale_up := (scale_up scaleset_max_size created_state uuid4).
Local Abbreviation scale_down := (scale_down free_nodes).
Local Abbreviation removals := (removals free_nodes).
Local Abbreviation free_count := (free_count free_nodes).
Local Abbreviation scan_scalesets := (scan_scalesets modifying).
Local Abbreviation process_pool :=
  (process_pool modifying scaleset_max_size created_state uuid4 free_nodes
                get_tasks_by_pool_name).
Local Abbreviation main :=
  (main modifying scaleset_max_size created_state uuid4 free_nodes
        get_tasks_by_pool_name).

(** [set_solver] after dropping the collaborators the goal does not mention,
    so that a lemma depends only on those it is about. *)
Local Set Warnings "-clear-no-such-hyp".
Local Ltac sets :=
  try clear modifying; try clear created_state; try clear uuid4;
  try clear free_nodes; try clear get_tasks_by_pool_name;
  try clear scaleset_max_size; set_solver.

(** *** Scale-up: how the demand is split *)

Lemma room_nonneg cfg scalesets : 0 <= room cfg scalesets.
Proof.
  induction scalesets as [|s rest IH]; simpl; [done|].
  destruct (bool_decide _ && _) eqn:Hguard; [|lia].
  apply andb_true_iff in Hguard as [_ Hlt%Z.ltb_lt]. lia.
Qed.

Lemma scale_up_fill_out cfg scalesets nodes_needed :
  0 < nodes_needed ->
  (scale_up_fill cfg scalesets nodes_needed).2
  = if nodes_needed <=? room cfg scalesets then None
    else Some (nodes_needed - room cfg scalesets).
Proof.
  revert nodes_needed.
  induction scalesets as [|s rest IH]; intros n Hn; simpl.
  - destruct (n <=? 0) eqn:E; [apply Z.leb_le in E; lia|]. f_equal. lia.
  - pose proof (room_nonneg cfg rest) as Hroom.
    destruct (bool_decide _ && _) eqn:Hguard.
    + apply andb_true_iff in Hguard as [_ Hlt%Z.ltb_lt].
      unfold fill_one.
      destruct (n <=? fill_cap cfg s - Scaleset.size s) eqn:Hfit.
      * apply Z.leb_le in Hfit. simpl.
        destruct (n <=? _) eqn:E; [done | apply Z.leb_gt in E; lia].
      * apply Z.leb_gt in Hfit.
        destruct (_ =? 0) eqn:Hz; [apply Z.eqb_eq in Hz; lia|].
        specialize (IH (n - (fill_cap cfg s - Scaleset.size s)) ltac:(lia)).
        destruct (scale_up_fill cfg rest _) as [[rest' log] out].
        simpl in *. rewrite IH.
        destruct (_ <=? room cfg rest) eqn:E1;
          destruct (n <=? _) eqn:E2; try done;
          rewrite ?Z.leb_le, ?Z.leb_gt in *; try lia.
        f_equal. lia.
    + specialize (IH n Hn).
      destruct (scale_up_fill cfg rest n) as [[rest' log] out].
      simpl in *. by rewrite IH.
Qed.

(** X1. The first loop of [scale_up] places a positive demand in the running
    scalesets as far as their room under the caps goes: it returns from
    inside the loop exactly when the demand fits in that room, and otherwise
    ends with the demand minus the room still needed. *)
Theorem scale_up_fill_outcome cfg scalesets nodes_needed :
  0 < nodes_needed ->
  (scale_up_fill cfg scalesets nodes_needed).2
  = if nodes_needed <=? room cfg scalesets then None
    else Some (nodes_needed - room cfg scalesets).
Proof. apply scale_up_fill_out. Qed.

(** X2. When the running scalesets have room for the whole demand,
    [scale_up] creates nothing and raises nothing, also with no region set
    and with a creation cap of zero: the demand goes to the existing
    scalesets in full. *)
Theorem scale_up_absorbed drawn pool cfg scalesets nodes_needed :
  Pool.autoscale pool = Some cfg ->
  0 < nodes_needed <= room cfg scalesets ->
  run_raised (scale_up drawn pool scalesets nodes_needed) = None
  /\ created (run_log (scale_up drawn pool scalesets nodes_needed)) = []
  /\ size_increases scalesets
       (run_scalesets (scale_up drawn pool scalesets nodes_needed))
     = nodes_needed.
Proof.
  intros Hcfg [Hn Hroom].
  pose proof (scale_up_fill_out cfg scalesets nodes_needed Hn) as Hout.
  destruct (scale_up_fill cfg scalesets nodes_needed)
    as [[scalesets' log] out] eqn:Hfill.
  simpl in Hout. apply Z.leb_le in Hroom. rewrite Hroom in Hout. subst out.
  rewrite (scale_up_returned _ _ _ drawn _ _ _ _ _ _ Hcfg Hfill). simpl.
  destruct (scale_up_fill_log _ _ _ _ _ _ _ Hfill) as (Hcreated & _ & _).
  pose proof (scale_up_fill_conserves _ _ _ _ _ _ _ Hfill) as Hsum.
  simpl in Hsum. repeat split; [done | lia].
Qed.

Lemma scale_up_fill_full cfg scalesets n scalesets' log remaining :
  scale_up_fill cfg scalesets n = (scalesets', log, Some remaining) ->
  Forall2 (fun s s' =>
             Scaleset.state s = running -> fill_cap cfg s <= Scaleset.size s')
          scalesets scalesets'.
Proof.
  revert n scalesets' log.
  induction scalesets as [|s rest IH]; intros n scalesets' log; simpl.
  - intros [= <- <-]. constructor.
  - destruct (bool_decide _ && _) eqn:Hguard.
    + unfold fill_one.
      destruct (n <=? fill_cap cfg s - Scaleset.size s) eqn:Hfit; [done|].
      destruct (_ =? 0); [done|].
      destruct (scale_up_fill cfg rest _) as [[rest' log'] out'] eqn:E.
      intros [= <- <- ->]. constructor; [simpl; lia | eauto].
    + destruct (scale_up_fill cfg rest n) as [[rest' log'] out'] eqn:E.
      intros [= <- <- ->]. constructor; [|eauto].
      intros Hrun. apply andb_false_iff in Hguard as [Hne | Hge].
      * by apply bool_decide_eq_false in Hne.
      * apply Z.ltb_ge in Hge. done.
Qed.

(** X3. Fill before create: whenever [scale_up] creates a scaleset, or
    raises, every running scaleset of the pool has been brought to its cap
    (or was at or above it already). *)
Theorem scale_up_fill_before_create drawn pool cfg scalesets nodes_needed :
  Pool.autoscale pool = Some cfg ->
  created (run_log (scale_up drawn pool scalesets nodes_needed)) <> []
  \/ run_raised (scale_up drawn pool scalesets nodes_needed) <> None ->
  Forall2 (fun s s' =>
             Scaleset.state s = running -> fill_cap cfg s <= Scaleset.size s')
          scalesets
          (run_scalesets (scale_up drawn pool scalesets nodes_needed)).
Proof.
  intros Hcfg.
  destruct (scale_up_fill cfg scalesets nodes_needed)
    as [[scalesets' log] out] eqn:Hfill.
  destruct (scale_up_fill_log _ _ _ _ _ _ _ Hfill) as (Hcreated & _ & _).
  destruct out as [remaining|].
  - intros _. pose proof (scale_up_fill_full _ _ _ _ _ _ Hfill) as Hfull.
    destruct (py_ceil_div remaining (create_cap cfg)) as [k|] eqn:Hk.
    + by rewrite (scale_up_creating _ _ _ drawn _ _ _ _ _ _ _ _ Hcfg Hfill Hk).
    + unfold scale_up_def. by rewrite Hcfg, Hfill, Hk.
  - rewrite (scale_up_returned _ _ _ drawn _ _ _ _ _ _ Hcfg Hfill). simpl.
    rewrite Hcreated. by intros [? | ?].
Qed.

Lemma scale_up_create_step pool cfg iterations drawn n :
  truthy_str (AutoScaleConfig.region cfg) = true ->
  map Scaleset.size (created (scale_up_create pool cfg (S iterations) drawn n).1)
  = Z.min (create_cap cfg) n
    :: map Scaleset.size
         (created (scale_up_create pool cfg iterations (S drawn)
                     (n - Z.min (create_cap cfg) n)).1).
Proof.
  intros Hregion. simpl. rewrite Hregion. simpl. unfold create_cap_def.
  by destruct (scale_up_create pool cfg iterations (S drawn) _).
Qed.

Lemma scale_up_create_sizes pool cfg iterations drawn n :
  truthy_str (AutoScaleConfig.region cfg) = true ->
  0 < create_cap cfg ->
  Z.of_nat iterations * create_cap cfg < n
  <= (Z.of_nat iterations + 1) * create_cap cfg ->
  map Scaleset.size (created (scale_up_create pool cfg (S iterations) drawn n).1)
  = replicate iterations (create_cap cfg)
    ++ [n - Z.of_nat iterations * create_cap cfg].
Proof.
  intros Hregion Hcap. revert drawn n.
  induction iterations as [|k IH]; intros drawn n Hn;
    rewrite scale_up_create_step by done.
  - simpl. f_equal. lia.
  - rewrite IH by nia. cbn [replicate app]. f_equal; [nia|].
    do 2 f_equal. nia.
Qed.

(** X4. How the second loop of [scale_up] cuts the demand left by the first:
    with a region set and a positive creation cap, it creates
    [ceil(remaining / cap)] scalesets, all of them of the size of the cap
    except the last, which takes what is left; none of them is empty. *)
Theorem scale_up_created_sizes drawn pool cfg scalesets nodes_needed
    scalesets' log remaining :
  Pool.autoscale pool = Some cfg ->
  truthy_str (AutoScaleConfig.region cfg) = true ->
  0 < create_cap cfg ->
  scale_up_fill cfg scalesets nodes_needed = (scalesets', log, Some remaining) ->
  0 < remaining ->
  exists k,
    py_ceil_div remaining (create_cap cfg) = Some k
    /\ 1 <= k
    /\ map Scaleset.size
           (created (run_log (scale_up drawn pool scalesets nodes_needed)))
       = replicate (Z.to_nat (k - 1)) (create_cap cfg)
         ++ [remaining - (k - 1) * create_cap cfg]
    /\ 0 < remaining - (k - 1) * create_cap cfg <= create_cap cfg.
Proof.
  intros Hcfg Hregion Hcap Hfill Hopen.
  destruct (py_ceil_div_defined remaining (create_cap cfg)) as [k Hk]; [lia|].
  pose proof (py_ceil_div_pos _ _ _ Hcap Hk) as Hbounds.
  destruct (scale_up_fill_log _ _ _ _ _ _ _ Hfill) as (Hcreated & _ & _).
  exists k. split; [done|]. split; [nia|]. split; [|lia].
  rewrite (scale_up_creating _ _ _ drawn _ _ _ _ _ _ _ _ Hcfg Hfill Hk). simpl.
  rewrite created_app, Hcreated. simpl.
  replace (Z.to_nat k) with (S (Z.to_nat (k - 1))) by nia.
  rewrite scale_up_create_sizes; [|done|done|rewrite Z2Nat.id; nia].
  rewrite Z2Nat.id by nia. done.
Qed.

(** *** Memory and store stay in step *)

Lemma saved_app log log' : saved (log ++ log') = saved log ++ saved log'.
Proof. unfold saved. apply omap_app. Qed.

Lemma same_scaleset_refl s : same_scaleset s s.
Proof. by repeat split. Qed.

Lemma scale_up_fill_saved cfg scalesets n scalesets' log out :
  scale_up_fill cfg scalesets n = (scalesets', log, out) ->
  Forall2 (fun s s' => same_scaleset s s' /\ (s' = s \/ s' ∈ saved log))
          scalesets scalesets'
  /\ (forall s, s ∈ saved log -> s ∈ scalesets').
Proof.
  revert n scalesets' log out.
  induction scalesets as [|s rest IH]; intros n scalesets' log out; simpl.
  - intros [= <- <- <-]. split; [constructor | by intros ? ?%elem_of_nil].
  - destruct (bool_decide _ && _).
    + destruct (fill_one _ _ _) as [sv remaining] eqn:Hone.
      destruct (fill_one_size _ _ _ _ _ Hone) as (_ & _ & Hsv).
      assert (same_scaleset s sv) by (rewrite Hsv; by repeat split).
      destruct (remaining =? 0).
      * intros [= <- <- <-]. split.
        -- constructor; [split; [done | right; simpl; sets]|].
           apply Forall2_same_length_lookup_2; [done|].
           intros i x y Hx Hy. assert (x = y) as -> by congruence.
           split; [apply same_scaleset_refl | by left].
        -- simpl. sets.
      * destruct (scale_up_fill cfg rest remaining) as [[rest' log'] out'] eqn:E.
        intros [= <- <- <-]. destruct (IH _ _ _ _ E) as [IH2 IHin]. split.
        -- constructor; [split; [done | right; simpl; sets]|].
           eapply Forall2_impl; [exact IH2|].
           intros x y [? [-> | ?]]; (split; [done|]); [by left|].
           right. simpl. sets.
        -- simpl. intros x [-> | Hx]%elem_of_cons; [sets|].
           apply IHin in Hx. sets.
    + destruct (scale_up_fill cfg rest n) as [[rest' log'] out'] eqn:E.
      intros [= <- <- <-]. destruct (IH _ _ _ _ E) as [IH2 IHin]. split.
      * constructor; [split; [apply same_scaleset_refl | by left] | done].
      * intros x Hx. apply IHin in Hx. sets.
Qed.

Lemma scale_up_create_saved pool cfg iterations drawn n :
  saved (scale_up_create pool cfg iterations drawn n).1
  = created (scale_up_create pool cfg iterations drawn n).1.
Proof.
  revert drawn n. induction iterations as [|k IH]; intros drawn n; simpl; [done|].
  destruct (negb _); [done|].
  specialize (IH (S drawn)
                 (n - Z.min (Z.min (scaleset_max_size (AutoScaleConfig.image cfg))
                                   (AutoScaleConfig.scaleset_size cfg)) n)).
  destruct (scale_up_create pool cfg k (S drawn) _) as [log raised].
  simpl in *. by rewrite IH.
Qed.

Lemma scale_up_saved drawn pool scalesets n :
  saved_as_left scalesets (scale_up drawn pool scalesets n).
Proof.
  unfold saved_as_left, scale_up_def.
  destruct (Pool.autoscale pool) as [cfg|]; simpl.
  2:{ split; [|sets].
      apply Forall2_same_length_lookup_2; [done|].
      intros i x y Hx Hy. assert (x = y) as -> by congruence.
      split; [apply same_scaleset_refl | by left]. }
  destruct (scale_up_fill cfg scalesets n) as [[scalesets' log] out] eqn:Hfill.
  destruct (scale_up_fill_saved _ _ _ _ _ _ Hfill) as [H2 Hin].
  destruct (scale_up_fill_log _ _ _ _ _ _ _ Hfill) as (Hcreated & _ & _).
  assert (Hquiet : saved_as_left scalesets (mkRun scalesets' log None)
                   /\ forall e, saved_as_left scalesets (mkRun scalesets' log (Some e))).
  { unfold saved_as_left, persisted. simpl. rewrite Hcreated.
    split; [|intros e]; (split; [done|]); sets. }
  destruct out as [remaining|]; [|apply Hquiet].
  destruct (py_ceil_div remaining (create_cap cfg)) as [k|]; [|apply Hquiet].
  pose proof (scale_up_create_saved pool cfg (Z.to_nat k) drawn remaining) as Hsc.
  destruct (scale_up_create pool cfg (Z.to_nat k) drawn remaining)
    as [log' raised]. simpl in *.
  unfold persisted. simpl. rewrite saved_app, created_app, Hcreated, Hsc. simpl.
  split; [|sets].
  eapply Forall2_impl; [exact H2|]. intros x y [? [-> | ?]]; sets.
Qed.

Lemma scale_down_saved scalesets n :
  Forall2 (fun s s' => same_scaleset s s'
                       /\ (s' = s \/ s' ∈ saved (scale_down scalesets n).1.2))
          scalesets (scale_down scalesets n).1.1
  /\ (forall s, s ∈ saved (scale_down scalesets n).1.2 ->
                s ∈ (scale_down scalesets n).1.1).
Proof.
  revert n. induction scalesets as [|s rest IH]; intros n; simpl.
  - split; [constructor | by intros ? ?%elem_of_nil].
  - destruct (scale_down_one s (free_nodes (Scaleset.scaleset_id s)) n)
      as [[s' log] n'] eqn:Hone.
    assert (Hs : same_scaleset s s' /\ (s' = s /\ saved log = []
                                        \/ saved log = [s'])).
    { unfold scale_down_one in Hone.
      destruct (_ && _); [|injection Hone as <- <- <-;
                           split; [apply same_scaleset_refl | by left]].
      destruct (_ && _); injection Hone as <- <- <-.
      - split; [by repeat split|]. right. simpl. f_equal.
        clear. by induction (free_nodes _).
      - split; [by repeat split|]. by right. }
    specialize (IH n'). destruct (scale_down rest n') as [[rest' log'] final].
    simpl in *. destruct IH as [IH2 IHin]. destruct Hs as [Hsame Hs].
    rewrite saved_app. split.
    + constructor; [split; [done|]; destruct Hs as [[-> _] | ->]; sets|].
      eapply Forall2_impl; [exact IH2|]. intros x y [? [-> | ?]]; sets.
    + intros x [Hx | Hx]%elem_of_app; [|apply IHin in Hx; sets].
      destruct Hs as [[_ Hnil] | Hone']; [rewrite Hnil in Hx | rewrite Hone' in Hx];
        sets.
Qed.

(** X5. Memory and store stay in step: whatever way the tick takes through a
    pool, and also when it ends by raising, a scaleset keeps its identifier,
    pool, image and other fixed fields; every scaleset whose size or state
    was changed was saved as it now stands; every created scaleset was
    saved; and nothing is saved but these. *)
Theorem process_pool_saved_as_left drawn pool scalesets :
  saved_as_left scalesets (process_pool drawn pool scalesets).
Proof.
  assert (Hquiet : saved_as_left scalesets (mkRun scalesets [] None)).
  { unfold saved_as_left. simpl. split; [|sets].
    apply Forall2_same_length_lookup_2; [done|].
    intros i x y Hx Hy. assert (x = y) as -> by congruence.
    split; [apply same_scaleset_refl | by left]. }
  unfold process_pool_def.
  destruct (Pool.autoscale pool) as [cfg|] eqn:Hcfg; [|done].
  destruct (scan_scalesets scalesets _) as [busy n].
  destruct busy; [done|].
  destruct (0 <? n); [apply scale_up_saved|].
  destruct (n <? 0); [|done].
  pose proof (scale_down_saved scalesets (Z.abs n)) as [H2 Hin].
  pose proof (scale_down_log free_nodes scalesets (Z.abs n)) as (_ & _ & Hc).
  destruct (scale_down scalesets (Z.abs n)) as [[scalesets' log] final].
  unfold saved_as_left, persisted. simpl in *. rewrite Hc.
  split; [done|]. sets.
Qed.

(** *** Where exceptions come from *)

Lemma py_ceil_div_none a b : py_ceil_div a b = None -> b = 0.
Proof.
  unfold py_ceil_div. destruct (b =? 0) eqn:E; [|done].
  intros _. by apply Z.eqb_eq.
Qed.

Lemma scale_up_raises drawn pool cfg scalesets n e :
  Pool.autoscale pool = Some cfg ->
  0 < n ->
  run_raised (scale_up drawn pool scalesets n) = Some e ->
  created (run_log (scale_up drawn pool scalesets n)) = []
  /\ ((e = ZeroDivisionError /\ create_cap cfg = 0)
      \/ (e = RegionIsMissing
          /\ truthy_str (AutoScaleConfig.region cfg) = false
          /\ 0 < create_cap cfg)).
Proof.
  intros Hcfg Hn.
  destruct (scale_up_fill cfg scalesets n) as [[scalesets' log] out] eqn:Hfill.
  destruct (scale_up_fill_log _ _ _ _ _ _ _ Hfill) as (Hcreated & _ & _).
  destruct out as [remaining|];
    [|by rewrite (scale_up_returned _ _ _ drawn _ _ _ _ _ _ Hcfg Hfill)].
  pose proof (scale_up_fill_open _ _ _ _ _ _ _ Hn Hfill) as Hopen.
  destruct (py_ceil_div remaining (create_cap cfg)) as [k|] eqn:Hk.
  - rewrite (scale_up_creating _ _ _ drawn _ _ _ _ _ _ _ _ Hcfg Hfill Hk). simpl.
    destruct (truthy_str (AutoScaleConfig.region cfg)) eqn:Hregion.
    + destruct (scale_up_create_region scaleset_max_size created_state uuid4
                  pool cfg (Z.to_nat k) drawn remaining Hregion) as [-> _]. done.
    + rewrite scale_up_create_no_region by done. simpl.
      destruct (Z.to_nat k) eqn:Hk0; [done|]. intros [= <-].
      rewrite app_nil_r. split; [done|]. right. repeat split.
      destruct (Z.lt_trichotomy (create_cap cfg) 0) as [Hneg | [Hzero | Hpos]];
        [|by (unfold py_ceil_div in Hk; rewrite Hzero in Hk)|done].
      pose proof (py_ceil_div_neg _ _ _ Hopen Hneg Hk). lia.
  - apply py_ceil_div_none in Hk.
    rewrite (scale_up_zero_cap _ _ _ drawn _ _ _ _ _ _ _ Hcfg Hfill Hk). simpl.
    intros [= <-]. split; [done|]. by left.
Qed.

(** X6. The exceptions of [scale_up] itself, the missing-region exception
    of line 66 and the division by zero of lines 50-56 (a failing call of a
    collaborator is not among them): when [scale_up] raises one of them for
    a positive demand, the demand exceeded the room of the running
    scalesets, no scaleset has been created, and the exception is the
    division error exactly for a creation cap of zero, and otherwise the
    missing-region exception, with no region set and a positive cap. *)
Theorem scale_up_own_exceptions drawn pool cfg scalesets nodes_needed e :
  Pool.autoscale pool = Some cfg ->
  0 < nodes_needed ->
  run_raised (scale_up drawn pool scalesets nodes_needed) = Some e ->
  room cfg scalesets < nodes_needed
  /\ created (run_log (scale_up drawn pool scalesets nodes_needed)) = []
  /\ ((e = ZeroDivisionError /\ create_cap cfg = 0)
      \/ (e = RegionIsMissing
          /\ truthy_str (AutoScaleConfig.region cfg) = false
          /\ 0 < create_cap cfg)).
Proof.
  intros Hcfg Hn Hraised. split; [|by apply scale_up_raises].
  pose proof (scale_up_fill_out cfg scalesets nodes_needed Hn) as Hout.
  destruct (scale_up_fill cfg scalesets nodes_needed)
    as [[scalesets' log] out] eqn:Hfill.
  simpl in Hout.
  destruct (nodes_needed <=? room cfg scalesets) eqn:Hfit;
    [|by apply Z.leb_gt in Hfit].
  subst out.
  by rewrite (scale_up_returned _ _ _ drawn _ _ _ _ _ _ Hcfg Hfill) in Hraised.
Qed.

(** *** Scale-down: what it takes and what it leaves *)

Lemma scale_down_one_within s nodes n s' log remaining :
  0 <= n ->
  scale_down_one s nodes n = (s', log, remaining) ->
  0 <= remaining.
Proof.
  intros Hn. destruct (decide (nodes = [] \/ n <= 0)) as [Hskip | Hguard].
  { rewrite scale_down_one_skip by done. intros [= <- <- <-]. done. }
  assert (Hnodes : nodes <> []) by (intros ?; apply Hguard; by left).
  assert (Hpos : 0 < n) by lia.
  destruct (retire_cond_dec s nodes n) as [Hcond | Hcond].
  - rewrite scale_down_one_retire by done. intros [= <- <- <-].
    destruct Hcond. lia.
  - pose proof (scale_down_one_shrink s nodes n Hnodes Hpos Hcond) as Hshrink.
    simpl in Hshrink. rewrite Hshrink. intros [= <- <- <-]. lia.
Qed.

Lemma removals_sum scalesets n :
  foldr Z.add 0 (removals scalesets n) = n - (scale_down scalesets n).2.
Proof.
  revert n. induction scalesets as [|s rest IH]; intros n; simpl; [lia|].
  destruct (scale_down_one s (free_nodes (Scaleset.scaleset_id s)) n)
    as [[s' log] n'] eqn:Hone.
  specialize (IH n'). destruct (scale_down rest n') as [[rest' log'] final].
  simpl in *. lia.
Qed.

Lemma scale_down_request scalesets nodes_to_remove :
  0 <= nodes_to_remove ->
  0 <= (scale_down scalesets nodes_to_remove).2 <= nodes_to_remove
  /\ - size_increases scalesets (scale_down scalesets nodes_to_remove).1.1
     <= nodes_to_remove - (scale_down scalesets nodes_to_remove).2.
Proof.
  revert nodes_to_remove.
  induction scalesets as [|s rest IH]; intros n Hn; simpl.
  - unfold size_increases. simpl. lia.
  - destruct (scale_down_one s (free_nodes (Scaleset.scaleset_id s)) n)
      as [[s' log] n'] eqn:Hone.
    pose proof (scale_down_one_within _ _ _ _ _ _ Hn Hone) as Hn'.
    destruct (scale_down_one_bounds _ _ _ _ _ _ Hone) as (Hsz & _ & _ & _).
    specialize (IH n' Hn').
    destruct (scale_down rest n') as [[rest' log'] final].
    simpl in *. rewrite size_increases_cons. lia.
Qed.

(** X7. [scale_down] never takes more than it is asked for: for a request
    that is not negative, what is left of [nodes_to_remove] at the end lies
    between zero and the request, and the sizes drop in total by no more
    than what was taken off it. *)
Theorem scale_down_within_request scalesets nodes_to_remove :
  0 <= nodes_to_remove ->
  0 <= (scale_down scalesets nodes_to_remove).2 <= nodes_to_remove
  /\ - size_increases scalesets (scale_down scalesets nodes_to_remove).1.1
     <= nodes_to_remove - (scale_down scalesets nodes_to_remove).2.
Proof. apply scale_down_request. Qed.

(** X8. [scale_down] leaves everything as it is, and issues no call, when
    there is nothing to remove or when no scaleset has a free node: the
    pass over the scalesets is harmless. *)
Theorem scale_down_idle scalesets nodes_to_remove :
  nodes_to_remove <= 0
  \/ Forall (fun s => free_nodes (Scaleset.scaleset_id s) = []) scalesets ->
  scale_down scalesets nodes_to_remove = (scalesets, [], nodes_to_remove).
Proof.
  intros Hidle. induction scalesets as [|s rest IH]; simpl; [done|].
  rewrite scale_down_one_skip.
  - rewrite IH; [done|]. destruct Hidle as [? | Hall]; [by left|].
    right. by apply Forall_inv_tail in Hall.
  - destruct Hidle as [? | Hall]; [by right|]. left.
    by apply Forall_inv in Hall.
Qed.

(** X9. No scaleset is resized to nothing: when no scaleset has more free
    nodes than nodes, a scaleset that [scale_down] touches is either retired
    whole, all of its nodes being free, with its size left as it is, or
    shrunk to a smaller size that is still positive. *)
Theorem scale_down_retire_or_keep scalesets nodes_to_remove :
  Forall (fun s => free_count s <= Scaleset.size s) scalesets ->
  Forall2 (fun s s' =>
             s' = s
             \/ (s' = Scaleset.set_state s shutdown
                 /\ free_count s = Scaleset.size s /\ 0 < Scaleset.size s)
             \/ (Scaleset.state s' = resize
                 /\ 0 < Scaleset.size s' < Scaleset.size s))
          scalesets (scale_down scalesets nodes_to_remove).1.1.
Proof.
  revert nodes_to_remove.
  induction scalesets as [|s rest IH]; intros n Hall; simpl; [constructor|].
  apply Forall_cons in Hall as [Hs Hrest]. unfold free_count in Hs.
  set (nodes := free_nodes (Scaleset.scaleset_id s)) in *.
  destruct (scale_down_one s nodes n) as [[s' log] n'] eqn:Hone.
  specialize (IH n' Hrest).
  destruct (scale_down rest n') as [[rest' log'] final]. simpl in *.
  constructor; [|done]. clear IH.
  destruct (decide (nodes = [] \/ n <= 0)) as [Hskip | Hguard].
  { rewrite scale_down_one_skip in Hone by done. injection Hone as <- <- <-.
    by left. }
  assert (Hnodes : nodes <> []) by (intros ?; apply Hguard; by left).
  assert (Hpos : 0 < n) by lia.
  assert (Hlen : 0 < Z.of_nat (length nodes)) by (destruct nodes; [done | simpl; lia]).
  destruct (retire_cond_dec s nodes n) as [Hcond | Hcond].
  - rewrite scale_down_one_retire in Hone by done. injection Hone as <- <- <-.
    right. left. destruct Hcond as [_ Heq]. unfold free_count. fold nodes.
    repeat split; [done | lia].
  - pose proof (scale_down_one_shrink s nodes n Hnodes Hpos Hcond) as Hshrink.
    simpl in Hshrink. rewrite Hshrink in Hone. injection Hone as <- <- <-.
    right. right. simpl. split; [done|]. unfold retire_cond in Hcond. lia.
Qed.

(** X10. A node is told to shut down only if it is one of the free nodes of
    a scaleset of the list all of whose nodes are free. *)
Theorem scale_down_shuts_free_nodes scalesets nodes_to_remove node :
  node ∈ shut_down (scale_down scalesets nodes_to_remove).1.2 ->
  exists s,
    s ∈ scalesets
    /\ node ∈ free_nodes (Scaleset.scaleset_id s)
    /\ free_count s = Scaleset.size s.
Proof.
  revert nodes_to_remove.
  induction scalesets as [|s rest IH]; intros n; simpl;
    [by intros ?%elem_of_nil|].
  set (nodes := free_nodes (Scaleset.scaleset_id s)).
  destruct (scale_down_one s nodes n) as [[s' log] n'] eqn:Hone.
  specialize (IH n').
  destruct (scale_down rest n') as [[rest' log'] final]. simpl in *.
  unfold shut_down in *. rewrite omap_app.
  intros [Hin | Hin]%elem_of_app.
  - exists s. split; [by left|].
    unfold scale_down_one in Hone.
    destruct (_ && _); [|injection Hone as <- <- <-; by apply elem_of_nil in Hin].
    destruct (_ && _) eqn:Hcond; injection Hone as <- <- <-.
    + apply retire_cond_test in Hcond as [_ Heq]. simpl in Hin.
      split; [|done]. fold nodes. clear -Hin.
      induction nodes as [|x l IHl]; simpl in Hin; [by apply elem_of_nil in Hin|].
      apply elem_of_cons in Hin as [-> | Hin]; [by left | right; auto].
    + simpl in Hin. by apply elem_of_nil in Hin.
  - destruct (IH Hin) as (s0 & Hs0 & Hrest). exists s0. split; [by right | done].
Qed.

(** *** Demand *)

Lemma get_vm_count_app tasks tasks' :
  get_vm_count (tasks ++ tasks') = get_vm_count tasks + get_vm_count tasks'.
Proof.
  induction tasks as [|[[p|] [tp|]] rest IH]; simpl; rewrite ?IH; lia.
Qed.

(** X11. The demand of a task list does not depend on the order of the
    tasks, adds up over concatenation, and is not changed by a task whose
    pool does not resolve or whose pool reference is not a typed one. *)
Theorem get_vm_count_order tasks tasks' task :
  (tasks ≡ₚ tasks' -> get_vm_count tasks = get_vm_count tasks')
  /\ get_vm_count (tasks ++ tasks') = get_vm_count tasks + get_vm_count tasks'
  /\ (counted task = false ->
      get_vm_count (tasks ++ task :: tasks') = get_vm_count (tasks ++ tasks')).
Proof.
  split; [|split].
  - intros Hperm. induction Hperm as [|x l l' _ IH|x y l|l l' l'' _ IH1 _ IH2].
    + done.
    + destruct x as [[p|] [tp|]]; simpl; by rewrite ?IH.
    + destruct x as [[p|] [tp|]], y as [[p'|] [tp'|]]; simpl; lia.
    + by rewrite IH1.
  - apply get_vm_count_app.
  - intros Hskip. rewrite !get_vm_count_app.
    destruct task as [[p|] [tp|]]; simpl; try done.
Qed.

(** X12. The desired size lies within the configured bounds: without a
    maximum (unset or zero) it is at least [min_size] and at least the
    demand; with a maximum it is at most the maximum, and at least
    [min_size] when [min_size] does not exceed the maximum. Where
    [min_size] exceeds the maximum, the maximum wins. *)
Theorem desired_size_bounds cfg tasks :
  (truthy_int (AutoScaleConfig.max_size cfg) = false ->
     AutoScaleConfig.min_size cfg <= desired_size cfg tasks
     /\ get_vm_count tasks <= desired_size cfg tasks)
  /\ (forall max_size,
        AutoScaleConfig.max_size cfg = Some max_size -> max_size <> 0 ->
        desired_size cfg tasks <= max_size
        /\ (AutoScaleConfig.min_size cfg <= max_size ->
            AutoScaleConfig.min_size cfg <= desired_size cfg tasks)
        /\ (max_size < AutoScaleConfig.min_size cfg ->
            desired_size cfg tasks = max_size)).
Proof.
  unfold desired_size. split.
  - intros ->. lia.
  - intros m -> Hm. simpl. apply Z.eqb_neq in Hm as ->. simpl. lia.
Qed.

(** *** The pool after it was processed *)

Lemma scale_up_total drawn pool cfg scalesets n :
  Pool.autoscale pool = Some cfg ->
  0 < n ->
  0 < create_cap cfg ->
  run_raised (scale_up drawn pool scalesets n) = None ->
  sum_sizes (persisted (scale_up drawn pool scalesets n))
  = sum_sizes scalesets + n.
Proof.
  intros Hcfg Hn Hcap. unfold persisted. rewrite sum_sizes_app.
  destruct (scale_up_fill cfg scalesets n) as [[scalesets' log] out] eqn:Hfill.
  pose proof (scale_up_fill_conserves _ _ _ _ _ _ _ Hfill) as Hsum.
  rewrite size_increases_sum in Hsum
    by (symmetry; eapply scale_up_fill_length; exact Hfill).
  destruct (scale_up_fill_log _ _ _ _ _ _ _ Hfill) as (Hcreated & _ & _).
  destruct out as [remaining|].
  - pose proof (scale_up_fill_open _ _ _ _ _ _ _ Hn Hfill) as Hopen.
    destruct (py_ceil_div_defined remaining (create_cap cfg)) as [k Hk]; [lia|].
    pose proof (py_ceil_div_pos _ _ _ Hcap Hk).
    rewrite (scale_up_creating _ _ _ drawn _ _ _ _ _ _ _ _ Hcfg Hfill Hk). simpl.
    destruct (truthy_str (AutoScaleConfig.region cfg)) eqn:Hregion.
    + intros _. rewrite created_app, Hcreated. simpl.
      rewrite scale_up_create_sum; [simpl in Hsum; lia | done | done |].
      rewrite Z2Nat.id; nia.
    + rewrite scale_up_create_no_region by done.
      destruct (Z.to_nat k) eqn:Hk0; [nia | done].
  - rewrite (scale_up_returned _ _ _ drawn _ _ _ _ _ _ Hcfg Hfill). simpl.
    intros _. rewrite Hcreated. unfold open_demand in Hsum. simpl in Hsum.
    change (sum_sizes []) with 0. lia.
Qed.

(** X13. One tick is enough to grow: when a pool that is not busy has no
    more nodes than desired, the creation cap is positive and processing the
    pool does not raise, the sizes of its scalesets, the created ones
    included, add up to the desired size afterwards. *)
Theorem process_pool_reaches_desired drawn pool cfg scalesets :
  Pool.autoscale pool = Some cfg ->
  is_busy modifying scalesets = false ->
  sum_sizes scalesets
  <= desired_size cfg (get_tasks_by_pool_name (Pool.name pool)) ->
  0 < create_cap cfg ->
  run_raised (process_pool drawn pool scalesets) = None ->
  sum_sizes (persisted (process_pool drawn pool scalesets))
  = desired_size cfg (get_tasks_by_pool_name (Pool.name pool)).
Proof.
  intros Hcfg Hidle Hle Hcap. unfold process_pool_def.
  rewrite Hcfg, scan_scalesets_spec, Hidle, scanned_idle by done.
  destruct (0 <? _) eqn:Hup.
  - apply Z.ltb_lt in Hup. intros Hraised.
    rewrite (scale_up_total drawn pool cfg) by done. lia.
  - apply Z.ltb_ge in Hup.
    replace (_ <? 0) with false by (symmetry; apply Z.ltb_ge; lia).
    intros _. unfold persisted. simpl. rewrite app_nil_r. lia.
Qed.

Lemma scale_down_one_taken s nodes n s' log remaining :
  scale_down_one s nodes n = (s', log, remaining) ->
  Scaleset.size s - Scaleset.size s' + Z.of_nat (length (shut_down log))
  = n - remaining.
Proof.
  unfold scale_down_one.
  destruct (_ && _); [|intros [= <- <- <-]; simpl; lia].
  destruct (_ && _) eqn:Hcond; intros [= <- <- <-].
  - apply retire_cond_test in Hcond as [_ Heq]. simpl.
    replace (length (shut_down (map EvSetShutdown nodes))) with (length nodes);
      [lia|].
    clear. unfold shut_down. induction nodes as [|x l IH]; simpl; [done|].
    by rewrite IH.
  - simpl. lia.
Qed.

Lemma scale_down_taken scalesets n :
  - size_increases scalesets (scale_down scalesets n).1.1
  + Z.of_nat (length (shut_down (scale_down scalesets n).1.2))
  = n - (scale_down scalesets n).2.
Proof.
  revert n. induction scalesets as [|s rest IH]; intros n; simpl.
  - unfold size_increases. simpl. lia.
  - destruct (scale_down_one s (free_nodes (Scaleset.scaleset_id s)) n)
      as [[s' log] n'] eqn:Hone.
    pose proof (scale_down_one_taken _ _ _ _ _ _ Hone) as Hstep.
    specialize (IH n').
    destruct (scale_down rest n') as [[rest' log'] final].
    simpl in *. unfold shut_down in *.
    rewrite size_increases_cons, omap_app, length_app. lia.
Qed.

(** X14. Reclaiming never goes below the desired size: when a pool that is
    not busy has at least as many nodes as desired, then after the pass the
    sizes of its scalesets, less the nodes that were told to shut down, still
    add up to at least the desired size. What the pass takes away, by
    shrinking and by retiring, is no more than the surplus. *)
Theorem process_pool_keeps_desired drawn pool cfg scalesets :
  Pool.autoscale pool = Some cfg ->
  is_busy modifying scalesets = false ->
  desired_size cfg (get_tasks_by_pool_name (Pool.name pool))
  <= sum_sizes scalesets ->
  let desired := desired_size cfg (get_tasks_by_pool_name (Pool.name pool)) in
  let r := process_pool drawn pool scalesets in
  desired + Z.of_nat (length (shut_down (run_log r)))
  <= sum_sizes (run_scalesets r)
  /\ sum_sizes scalesets - sum_sizes (run_scalesets r)
     + Z.of_nat (length (shut_down (run_log r)))
     <= sum_sizes scalesets - desired.
Proof.
  intros Hcfg Hidle Hle desired r.
  assert (desired + Z.of_nat (length (shut_down (run_log r)))
          <= sum_sizes (run_scalesets r)); [|lia].
  pose proof (scale_down_request scalesets
                (sum_sizes scalesets - desired) ltac:(lia)) as [Hfinal _].
  pose proof (scale_down_taken scalesets (sum_sizes scalesets - desired))
    as Htaken.
  pose proof (scale_down_length free_nodes scalesets
                (sum_sizes scalesets - desired)) as Hlen.
  rewrite size_increases_sum in Htaken by done.
  unfold r, process_pool_def.
  rewrite Hcfg, scan_scalesets_spec, Hidle, scanned_idle by done.
  fold desired.
  replace (0 <? desired - sum_sizes scalesets) with false
    by (symmetry; apply Z.ltb_ge; lia).
  destruct (desired - sum_sizes scalesets <? 0) eqn:Hdown;
    [apply Z.ltb_lt in Hdown | apply Z.ltb_ge in Hdown; simpl; lia].
  replace (Z.abs (desired - sum_sizes scalesets))
    with (sum_sizes scalesets - desired) by lia.
  destruct (scale_down scalesets (sum_sizes scalesets - desired))
    as [[scalesets' log] final]. simpl in *. lia.
Qed.

(** *** What a run never does *)

Lemma shut_down_app log log' :
  shut_down (log ++ log') = shut_down log ++ shut_down log'.
Proof. unfold shut_down. apply omap_app. Qed.

Lemma scale_up_fill_quiet_nodes cfg scalesets n :
  shut_down (scale_up_fill cfg scalesets n).1.2 = [].
Proof.
  revert n. induction scalesets as [|s rest IH]; intros n; simpl; [done|].
  destruct (bool_decide _ && _).
  - destruct (fill_one _ _ _) as [sv remaining].
    destruct (remaining =? 0); [done|].
    specialize (IH remaining).
    by destruct (scale_up_fill cfg rest remaining) as [[rest' log] out].
  - specialize (IH n).
    by destruct (scale_up_fill cfg rest n) as [[rest' log] out].
Qed.

Lemma scale_up_create_quiet_nodes pool cfg iterations drawn n :
  shut_down (scale_up_create pool cfg iterations drawn n).1 = [].
Proof.
  revert drawn n. induction iterations as [|k IH]; intros drawn n; simpl; [done|].
  destruct (negb _); [done|].
  specialize (IH (S drawn)
                 (n - Z.min (Z.min (scaleset_max_size (AutoScaleConfig.image cfg))
                                   (AutoScaleConfig.scaleset_size cfg)) n)).
  by destruct (scale_up_create pool cfg k (S drawn) _) as [log raised].
Qed.

Lemma scale_up_quiet_nodes drawn pool scalesets n :
  shut_down (run_log (scale_up drawn pool scalesets n)) = [].
Proof.
  unfold scale_up_def. destruct (Pool.autoscale pool) as [cfg|]; [|done].
  pose proof (scale_up_fill_quiet_nodes cfg scalesets n) as Hquiet.
  destruct (scale_up_fill cfg scalesets n) as [[scalesets' log] out].
  simpl in Hquiet. destruct out as [remaining|]; [|done].
  destruct (py_ceil_div remaining (create_cap cfg)) as [k|]; [|done].
  pose proof (scale_up_create_quiet_nodes pool cfg (Z.to_nat k) drawn remaining)
    as Hq.
  destruct (scale_up_create pool cfg (Z.to_nat k) drawn remaining)
    as [log' raised]. simpl in *.
  by rewrite shut_down_app, Hquiet, Hq.
Qed.

(** X15. [scale_up] touches running scalesets only and never takes nodes
    away: a scaleset that is not running is left exactly as it is; for a
    positive demand no size goes down, and a scaleset that is changed grows
    and ends in the resizing state. No node is told to shut down. *)
Theorem scale_up_only_grows_running drawn pool scalesets nodes_needed :
  0 < nodes_needed ->
  Forall2 (fun s s' =>
             (Scaleset.state s <> running -> s' = s)
             /\ Scaleset.size s <= Scaleset.size s'
             /\ (s' <> s ->
                 Scaleset.size s < Scaleset.size s'
                 /\ Scaleset.state s' = resize))
          scalesets
          (run_scalesets (scale_up drawn pool scalesets nodes_needed))
  /\ shut_down (run_log (scale_up drawn pool scalesets nodes_needed)) = [].
Proof.
  intros Hn. split; [|apply scale_up_quiet_nodes]. unfold scale_up_def.
  destruct (Pool.autoscale pool) as [cfg|]; simpl.
  2:{ apply Forall2_same_length_lookup_2; [done|].
      intros i x y Hx Hy. assert (x = y) as -> by congruence.
      repeat split; try done; lia. }
  assert (Hgrow : forall scalesets' log out,
             scale_up_fill cfg scalesets nodes_needed = (scalesets', log, out) ->
             Forall2 (fun s s' =>
                        (Scaleset.state s <> running -> s' = s)
                        /\ Scaleset.size s <= Scaleset.size s'
                        /\ (s' <> s ->
                            Scaleset.size s < Scaleset.size s'
                            /\ Scaleset.state s' = resize))
                     scalesets scalesets').
  { revert nodes_needed Hn.
    induction scalesets as [|s rest IH]; intros n Hn scalesets' log out; simpl.
    - intros [= <- <- <-]. constructor.
    - assert (Hsame : forall l : list Scaleset.t,
                 Forall2 (fun s s' =>
                            (Scaleset.state s <> running -> s' = s)
                            /\ Scaleset.size s <= Scaleset.size s'
                            /\ (s' <> s ->
                                Scaleset.size s < Scaleset.size s'
                                /\ Scaleset.state s' = resize)) l l).
      { intros l. apply Forall2_same_length_lookup_2; [done|].
        intros i x y Hx Hy. assert (x = y) as -> by congruence.
        repeat split; try done; lia. }
      destruct (bool_decide _ && _) eqn:Hguard.
      + apply andb_true_iff in Hguard as [Hrun%bool_decide_eq_true Hlt%Z.ltb_lt].
        destruct (fill_one _ _ _) as [sv remaining] eqn:Hone.
        destruct (fill_one_size _ _ _ _ _ Hone) as (Hsz & Hst & _).
        destruct (fill_one_bounds _ _ _ _ _ Hlt Hone) as [_ Hrem].
        specialize (Hrem Hn).
        assert (Hsv : Scaleset.size s < Scaleset.size sv).
        { unfold fill_one in Hone.
          destruct (n <=? _) eqn:E; injection Hone as <- <-; simpl; lia. }
        destruct (remaining =? 0) eqn:Hz.
        * intros [= <- <- <-]. constructor; [|apply Hsame].
          repeat split; try done; lia.
        * apply Z.eqb_neq in Hz.
          destruct (scale_up_fill cfg rest remaining) as [[rest' log'] out'] eqn:E.
          intros [= <- <- <-]. constructor; [|eapply IH; [|done]; lia].
          repeat split; try done; lia.
      + destruct (scale_up_fill cfg rest n) as [[rest' log'] out'] eqn:E.
        intros [= <- <- <-]. constructor; [|eapply IH; done].
        repeat split; try done; lia. }
  destruct (scale_up_fill cfg scalesets nodes_needed)
    as [[scalesets' log] out] eqn:Hfill.
  specialize (Hgrow _ _ _ eq_refl).
  destruct out as [remaining|]; [|done].
  destruct (py_ceil_div remaining (create_cap cfg)) as [k|]; [|done].
  by destruct (scale_up_create pool cfg (Z.to_nat k) drawn remaining).
Qed.

(** X16. A pass over a pool never both creates and shuts down: any scaleset
    is created only for a pool that lacks nodes, any node is told to shut
    down only for a pool that has too many, and a busy pool sees neither. *)
Theorem process_pool_one_direction drawn pool cfg scalesets :
  Pool.autoscale pool = Some cfg ->
  let desired := desired_size cfg (get_tasks_by_pool_name (Pool.name pool)) in
  let r := process_pool drawn pool scalesets in
  (created (run_log r) <> [] ->
     is_busy modifying scalesets = false /\ sum_sizes scalesets < desired
     /\ shut_down (run_log r) = [])
  /\ (shut_down (run_log r) <> [] ->
      is_busy modifying scalesets = false /\ desired < sum_sizes scalesets
      /\ created (run_log r) = []).
Proof.
  intros Hcfg desired r. unfold r, process_pool_def.
  rewrite Hcfg, scan_scalesets_spec. fold desired.
  destruct (is_busy modifying scalesets) eqn:Hidle; [done|].
  rewrite scanned_idle by done.
  destruct (0 <? _) eqn:Hup.
  - apply Z.ltb_lt in Hup.
    rewrite scale_up_quiet_nodes. split; [intros _; repeat split; lia | done].
  - apply Z.ltb_ge in Hup. destruct (_ <? 0) eqn:Hdown; [|done].
    apply Z.ltb_lt in Hdown.
    pose proof (scale_down_log free_nodes scalesets
                  (Z.abs (desired - sum_sizes scalesets))) as (_ & _ & Hc).
    destruct (scale_down scalesets _) as [[scalesets' log] final].
    simpl in *. rewrite Hc. split; [done|]. intros _. repeat split; lia.
Qed.

(** *** The scan and the order of the scalesets *)

(** X17. Whether a pool is skipped as busy does not depend on the order in
    which its scalesets are enumerated, and for a pool that is not busy
    neither does the number of nodes found to be needed. *)
Theorem scan_scalesets_order scalesets scalesets' nodes_needed :
  scalesets ≡ₚ scalesets' ->
  (scan_scalesets scalesets nodes_needed).1
  = (scan_scalesets scalesets' nodes_needed).1
  /\ ((scan_scalesets scalesets nodes_needed).1 = false ->
      scan_scalesets scalesets nodes_needed
      = scan_scalesets scalesets' nodes_needed).
Proof.
  intros Hperm. rewrite !scan_scalesets_spec. simpl.
  assert (Hbusy : is_busy modifying scalesets = is_busy modifying scalesets').
  { induction Hperm as [|x l l' _ IH|x y l|l l' l'' _ IH1 _ IH2]; simpl.
    - done.
    - by rewrite IH.
    - by destruct (modifying (Scaleset.state x)), (modifying (Scaleset.state y)).
    - by rewrite IH1. }
  split; [done|]. intros Hidle.
  rewrite <- Hbusy, !scanned_idle by (done || by rewrite <- Hbusy).
  do 2 f_equal.
  clear Hbusy Hidle.
  induction Hperm as [|x l l' _ IH|x y l|l l' l'' _ IH1 _ IH2];
    unfold sum_sizes in *; simpl; lia.
Qed.

(** *** The tick over a list of pools *)

(** X18. The tick over two lists of pools in a row: if the tick over the
    first list raises, that is the whole tick and no pool of the second list
    is looked at; otherwise the tick goes on over the second list from the
    records the first left, and the calls of the two follow each other. *)
Theorem main_app pools pools' store drawn :
  main (pools ++ pools') store drawn
  = let t := main pools store drawn in
    match tick_raised t with
    | Some _ => t
    | None =>
        let t' := main pools' (tick_store t) (tick_drawn t) in
        mkTick (tick_store t') (tick_drawn t') (tick_log t ++ tick_log t')
               (tick_raised t')
    end.
Proof.
  revert store drawn. induction pools as [|pool rest IH]; intros store drawn.
  - simpl. by destruct (main pools' store drawn).
  - simpl.
    destruct (run_raised (process_pool drawn pool
                (search_by_pool store (Pool.name pool)))) as [e|]; [done|].
    rewrite IH. simpl.
    destruct (main rest _ _) as [store' drawn' log' [e|]]; simpl; [done|].
    by rewrite app_assoc.
Qed.

End Further.

(** ** The further properties at concrete fleets *)

Section FurtherConcrete.

Import Examples.

Local Abbreviation scale_up' := (scale_up max_size_1000 init new_ids).
Local Abbreviation scale_up_fill' := (scale_up_fill max_size_1000).
Local Abbreviation create_cap' := (create_cap max_size_1000).
Local Abbreviation fill_cap' := (fill_cap max_size_1000).
Local Abbreviation room' := (room max_size_1000).
Local Abbreviation process_pool' :=
  (process_pool modifying_spec max_size_1000 init new_ids).

(** Room for 3, 4 needed: the first loop ends with 1 node still needed. *)
Lemma scale_up_fill_outcome_witness :
  0 < 4
  /\ (scale_up_fill' cfg_2_10_5 two_running 4).2
     = if 4 <=? room' cfg_2_10_5 two_running then None
       else Some (4 - room' cfg_2_10_5 two_running).
Proof.
  assert (H1 : 0 < 4) by lia.
  split; [exact H1|].
  exact (scale_up_fill_outcome max_size_1000 cfg_2_10_5 two_running 4 H1).
Defined.

(** No region, but room for the 3 nodes needed: nothing is raised. *)
Lemma scale_up_absorbed_witness :
  Pool.autoscale (pool "linux" cfg_no_region) = Some cfg_no_region
  /\ 0 < 3 <= room' cfg_no_region two_running
  /\ run_raised (scale_up' 0%nat (pool "linux" cfg_no_region) two_running 3)
     = None
  /\ created (run_log (scale_up' 0%nat (pool "linux" cfg_no_region)
                                 two_running 3)) = []
  /\ size_increases two_running
       (run_scalesets (scale_up' 0%nat (pool "linux" cfg_no_region)
                                 two_running 3))
     = 3.
Proof.
  assert (H1 : Pool.autoscale (pool "linux" cfg_no_region) = Some cfg_no_region)
    by reflexivity.
  assert (H2 : 0 < 3 <= room' cfg_no_region two_running)
    by (vm_compute; split; congruence).
  split; [exact H1|]. split; [exact H2|].
  exact (scale_up_absorbed max_size_1000 init new_ids 0
           (pool "linux" cfg_no_region) cfg_no_region two_running 3 H1 H2).
Defined.

(** Room for 3 and 4 needed: a scaleset is created, and both running
    scalesets stand at the cap of 5. *)
Lemma scale_up_fill_before_create_witness :
  Pool.autoscale (pool "linux" cfg_2_10_5) = Some cfg_2_10_5
  /\ (created (run_log (scale_up' 0%nat (pool "linux" cfg_2_10_5) two_running 4))
      <> []
      \/ run_raised (scale_up' 0%nat (pool "linux" cfg_2_10_5) two_running 4)
         <> None)
  /\ Forall2 (fun s s' =>
                Scaleset.state s = running ->
                fill_cap' cfg_2_10_5 s <= Scaleset.size s')
             two_running
             (run_scalesets
                (scale_up' 0%nat (pool "linux" cfg_2_10_5) two_running 4)).
Proof.
  assert (H1 : Pool.autoscale (pool "linux" cfg_2_10_5) = Some cfg_2_10_5)
    by reflexivity.
  assert (H2 : created (run_log (scale_up' 0%nat (pool "linux" cfg_2_10_5)
                                            two_running 4)) <> []
               \/ run_raised (scale_up' 0%nat (pool "linux" cfg_2_10_5)
                                        two_running 4) <> None)
    by (left; vm_compute; congruence).
  split; [exact H1|]. split; [exact H2|].
  exact (scale_up_fill_before_create max_size_1000 init new_ids 0
           (pool "linux" cfg_2_10_5) cfg_2_10_5 two_running 4 H1 H2).
Defined.

(** No scaleset yet and 12 nodes needed under a cap of 5: three scalesets,
    of 5, 5 and 2 nodes. *)
Lemma scale_up_created_sizes_witness :
  Pool.autoscale (pool "linux" cfg_2_10_5) = Some cfg_2_10_5
  /\ truthy_str (AutoScaleConfig.region cfg_2_10_5) = true
  /\ 0 < create_cap' cfg_2_10_5
  /\ scale_up_fill' cfg_2_10_5 [] 12 = ([], [], Some 12)
  /\ 0 < 12
  /\ exists k,
       py_ceil_div 12 (create_cap' cfg_2_10_5) = Some k
       /\ 1 <= k
       /\ map Scaleset.size
              (created (run_log (scale_up' 0%nat (pool "linux" cfg_2_10_5) [] 12)))
          = replicate (Z.to_nat (k - 1)) (create_cap' cfg_2_10_5)
            ++ [12 - (k - 1) * create_cap' cfg_2_10_5]
       /\ 0 < 12 - (k - 1) * create_cap' cfg_2_10_5 <= create_cap' cfg_2_10_5.
Proof.
  assert (H1 : Pool.autoscale (pool "linux" cfg_2_10_5) = Some cfg_2_10_5)
    by reflexivity.
  assert (H2 : truthy_str (AutoScaleConfig.region cfg_2_10_5) = true)
    by reflexivity.
  assert (H3 : 0 < create_cap' cfg_2_10_5) by (vm_compute; reflexivity).
  assert (H4 : scale_up_fill' cfg_2_10_5 [] 12 = ([], [], Some 12))
    by reflexivity.
  assert (H5 : 0 < 12) by lia.
  split; [exact H1|]. split; [exact H2|]. split; [exact H3|].
  split; [exact H4|]. split; [exact H5|].
  exact (scale_up_created_sizes max_size_1000 init new_ids 0
           (pool "linux" cfg_2_10_5) cfg_2_10_5 [] 12 [] [] 12 H1 H2 H3 H4 H5).
Defined.

(** No region and 4 nodes needed with room for 2: [scale_up] raises. *)
Lemma scale_up_own_exceptions_witness :
  Pool.autoscale (pool "linux" cfg_no_region) = Some cfg_no_region
  /\ 0 < 4
  /\ run_raised (scale_up' 0%nat (pool "linux" cfg_no_region)
                           [scaleset "a" running 3] 4)
     = Some RegionIsMissing
  /\ room' cfg_no_region [scaleset "a" running 3] < 4
  /\ created (run_log (scale_up' 0%nat (pool "linux" cfg_no_region)
                                 [scaleset "a" running 3] 4)) = []
  /\ ((RegionIsMissing = ZeroDivisionError /\ create_cap' cfg_no_region = 0)
      \/ (RegionIsMissing = RegionIsMissing
          /\ truthy_str (AutoScaleConfig.region cfg_no_region) = false
          /\ 0 < create_cap' cfg_no_region)).
Proof.
  assert (H1 : Pool.autoscale (pool "linux" cfg_no_region) = Some cfg_no_region)
    by reflexivity.
  assert (H2 : 0 < 4) by lia.
  assert (H3 : run_raised (scale_up' 0%nat (pool "linux" cfg_no_region)
                             [scaleset "a" running 3] 4)
               = Some RegionIsMissing) by (vm_compute; reflexivity).
  split; [exact H1|]. split; [exact H2|]. split; [exact H3|].
  exact (scale_up_own_exceptions max_size_1000 init new_ids 0
           (pool "linux" cfg_no_region) cfg_no_region
           [scaleset "a" running 3] 4 RegionIsMissing H1 H2 H3).
Defined.

(** Two free nodes in a scaleset of 5 and 3 nodes to remove. *)
Lemma scale_down_within_request_witness :
  0 <= 3
  /\ 0 <= (scale_down (free_in_a 2) [scaleset "a" running 5] 3).2 <= 3
  /\ - size_increases [scaleset "a" running 5]
         (scale_down (free_in_a 2) [scaleset "a" running 5] 3).1.1
     <= 3 - (scale_down (free_in_a 2) [scaleset "a" running 5] 3).2.
Proof.
  assert (H1 : 0 <= 3) by lia.
  split; [exact H1|].
  exact (scale_down_within_request (free_in_a 2) [scaleset "a" running 5] 3 H1).
Defined.

(** No free node anywhere: 3 nodes to remove change nothing. *)
Lemma scale_down_idle_witness :
  (3 <= 0
   \/ Forall (fun s => no_free_nodes (Scaleset.scaleset_id s) = []) two_running)
  /\ scale_down no_free_nodes two_running 3 = (two_running, [], 3).
Proof.
  assert (H1 : 3 <= 0
               \/ Forall (fun s => no_free_nodes (Scaleset.scaleset_id s) = [])
                         two_running)
    by (right; repeat constructor).
  split; [exact H1|].
  exact (scale_down_idle no_free_nodes two_running 3 H1).
Defined.

(** Two free nodes in a scaleset of 5: it is shrunk, not emptied. *)
Lemma scale_down_retire_or_keep_witness :
  Forall (fun s => free_count (free_in_a 2) s <= Scaleset.size s)
         [scaleset "a" running 5]
  /\ Forall2 (fun s s' =>
                s' = s
                \/ (s' = Scaleset.set_state s shutdown
                    /\ free_count (free_in_a 2) s = Scaleset.size s
                    /\ 0 < Scaleset.size s)
                \/ (Scaleset.state s' = resize
                    /\ 0 < Scaleset.size s' < Scaleset.size s))
             [scaleset "a" running 5]
             (scale_down (free_in_a 2) [scaleset "a" running 5] 3).1.1.
Proof.
  assert (H1 : Forall (fun s => free_count (free_in_a 2) s <= Scaleset.size s)
                      [scaleset "a" running 5]).
  { repeat constructor. vm_compute. congruence. }
  split; [exact H1|].
  exact (scale_down_retire_or_keep (free_in_a 2) [scaleset "a" running 5] 3 H1).
Defined.

(** A scaleset of 5 free nodes is retired: its first node is told to shut
    down. *)
Lemma scale_down_shuts_free_nodes_witness :
  Node.mk "vm0" "a"
    ∈ shut_down (scale_down (free_in_a 5) [scaleset "a" running 5] 5).1.2
  /\ exists s,
       s ∈ [scaleset "a" running 5]
       /\ Node.mk "vm0" "a" ∈ free_in_a 5 (Scaleset.scaleset_id s)
       /\ free_count (free_in_a 5) s = Scaleset.size s.
Proof.
  assert (H1 : Node.mk "vm0" "a"
                 ∈ shut_down (scale_down (free_in_a 5)
                                [scaleset "a" running 5] 5).1.2)
    by (vm_compute; left).
  split; [exact H1|].
  exact (scale_down_shuts_free_nodes (free_in_a 5) [scaleset "a" running 5] 5
           (Node.mk "vm0" "a") H1).
Defined.

(** The tasks ask for 7 nodes and a running scaleset of 3 is there: after
    the pass the sizes add up to 7. *)
Lemma process_pool_reaches_desired_witness :
  Pool.autoscale (pool "linux" cfg_2_10_5) = Some cfg_2_10_5
  /\ is_busy modifying_spec [scaleset "a" running 3] = false
  /\ sum_sizes [scaleset "a" running 3]
     <= desired_size cfg_2_10_5
          (linux_tasks (Pool.name (pool "linux" cfg_2_10_5)))
  /\ 0 < create_cap' cfg_2_10_5
  /\ run_raised (process_pool' no_free_nodes linux_tasks 0%nat
                   (pool "linux" cfg_2_10_5) [scaleset "a" running 3]) = None
  /\ sum_sizes (persisted (process_pool' no_free_nodes linux_tasks 0%nat
                             (pool "linux" cfg_2_10_5) [scaleset "a" running 3]))
     = desired_size cfg_2_10_5
         (linux_tasks (Pool.name (pool "linux" cfg_2_10_5))).
Proof.
  assert (H1 : Pool.autoscale (pool "linux" cfg_2_10_5) = Some cfg_2_10_5)
    by reflexivity.
  assert (H2 : is_busy modifying_spec [scaleset "a" running 3] = false)
    by reflexivity.
  assert (H3 : sum_sizes [scaleset "a" running 3]
               <= desired_size cfg_2_10_5
                    (linux_tasks (Pool.name (pool "linux" cfg_2_10_5))))
    by (vm_compute; congruence).
  assert (H4 : 0 < create_cap' cfg_2_10_5) by (vm_compute; reflexivity).
  assert (H5 : run_raised (process_pool' no_free_nodes linux_tasks 0%nat
                             (pool "linux" cfg_2_10_5)
                             [scaleset "a" running 3]) = None)
    by (vm_compute; reflexivity).
  split; [exact H1|]. split; [exact H2|]. split; [exact H3|].
  split; [exact H4|]. split; [exact H5|].
  exact (process_pool_reaches_desired modifying_spec max_size_1000 init new_ids
           no_free_nodes linux_tasks 0 (pool "linux" cfg_2_10_5) cfg_2_10_5
           [scaleset "a" running 3] H1 H2 H3 H4 H5).
Defined.

(** Four nodes desired and a scaleset of 5 whose nodes are all free: the
    surplus of 1 does not cover it, so it is shrunk to 4 and no node is shut
    down. *)
Lemma process_pool_keeps_desired_witness :
  Pool.autoscale (pool "linux" cfg_4_10_5) = Some cfg_4_10_5
  /\ is_busy modifying_spec [scaleset "a" running 5] = false
  /\ desired_size cfg_4_10_5 (no_tasks (Pool.name (pool "linux" cfg_4_10_5)))
     <= sum_sizes [scaleset "a" running 5]
  /\ desired_size cfg_4_10_5 (no_tasks (Pool.name (pool "linux" cfg_4_10_5)))
     + Z.of_nat (length (shut_down (run_log
         (process_pool' (free_in_a 5) no_tasks 0%nat
            (pool "linux" cfg_4_10_5) [scaleset "a" running 5]))))
     <= sum_sizes (run_scalesets
                     (process_pool' (free_in_a 5) no_tasks 0%nat
                        (pool "linux" cfg_4_10_5) [scaleset "a" running 5])).
Proof.
  assert (H1 : Pool.autoscale (pool "linux" cfg_4_10_5) = Some cfg_4_10_5)
    by reflexivity.
  assert (H2 : is_busy modifying_spec [scaleset "a" running 5] = false)
    by reflexivity.
  assert (H3 : desired_size cfg_4_10_5
                 (no_tasks (Pool.name (pool "linux" cfg_4_10_5)))
               <= sum_sizes [scaleset "a" running 5])
    by (vm_compute; congruence).
  split; [exact H1|]. split; [exact H2|]. split; [exact H3|].
  exact (proj1 (process_pool_keeps_desired modifying_spec max_size_1000 init
                  new_ids (free_in_a 5) no_tasks 0 (pool "linux" cfg_4_10_5)
                  cfg_4_10_5 [scaleset "a" running 5] H1 H2 H3)).
Defined.

(** A running scaleset with room and one that is resizing: only the first
    is touched. *)
Lemma scale_up_only_grows_running_witness :
  0 < 4
  /\ Forall2 (fun s s' =>
                (Scaleset.state s <> running -> s' = s)
                /\ Scaleset.size s <= Scaleset.size s'
                /\ (s' <> s ->
                    Scaleset.size s < Scaleset.size s'
                    /\ Scaleset.state s' = resize))
             [scaleset "a" running 3; scaleset "b" resize 2]
             (run_scalesets
                (scale_up' 0%nat (pool "linux" cfg_2_10_5)
                   [scaleset "a" running 3; scaleset "b" resize 2] 4))
  /\ shut_down (run_log
                  (scale_up' 0%nat (pool "linux" cfg_2_10_5)
                     [scaleset "a" running 3; scaleset "b" resize 2] 4)) = [].
Proof.
  assert (H1 : 0 < 4) by lia.
  split; [exact H1|].
  exact (scale_up_only_grows_running max_size_1000 init new_ids 0
           (pool "linux" cfg_2_10_5)
           [scaleset "a" running 3; scaleset "b" resize 2] 4 H1).
Defined.

(** A pool that lacks nodes: scalesets are created and no node is shut
    down. *)
Lemma process_pool_one_direction_witness :
  Pool.autoscale (pool "linux" cfg_2_10_5) = Some cfg_2_10_5
  /\ created (run_log (process_pool' (free_in_a 2) linux_tasks 0%nat
                         (pool "linux" cfg_2_10_5) [scaleset "a" running 5]))
     <> []
  /\ shut_down (run_log (process_pool' (free_in_a 2) linux_tasks 0%nat
                           (pool "linux" cfg_2_10_5) [scaleset "a" running 5]))
     = [].
Proof.
  assert (H1 : Pool.autoscale (pool "linux" cfg_2_10_5) = Some cfg_2_10_5)
    by reflexivity.
  assert (H2 : created (run_log (process_pool' (free_in_a 2) linux_tasks 0%nat
                                   (pool "linux" cfg_2_10_5)
                                   [scaleset "a" running 5])) <> [])
    by (vm_compute; congruence).
  split; [exact H1|]. split; [exact H2|].
  destruct (process_pool_one_direction modifying_spec max_size_1000 init new_ids
              (free_in_a 2) linux_tasks 0 (pool "linux" cfg_2_10_5) cfg_2_10_5
              [scaleset "a" running 5] H1) as [Hup _].
  exact (proj2 (proj2 (Hup H2))).
Defined.

(** The two running scalesets in either order. *)
Lemma scan_scalesets_order_witness :
  two_running ≡ₚ [scaleset "b" running 4; scaleset "a" running 3]
  /\ scan_scalesets modifying_spec two_running 9
     = scan_scalesets modifying_spec
         [scaleset "b" running 4; scaleset "a" running 3] 9.
Proof.
  assert (H1 : two_running ≡ₚ [scaleset "b" running 4; scaleset "a" running 3])
    by apply perm_swap.
  split; [exact H1|].
  destruct (scan_scalesets_order modifying_spec two_running
              [scaleset "b" running 4; scaleset "a" running 3] 9 H1)
    as [_ Hidle].
  apply Hidle. reflexivity.
Defined.

End FurtherConcrete.
